(** * map2poster: the dashboard (main.py) and the poster engine it drives

    The dashboard of [main.py] is glue: it reads the sidebar widgets, resolves
    a point (explicit override or memoised geocoding), loads a theme, asks for
    a temporary file, optionally loads fonts and calls [CreatePoster].  All of
    that is stateful and may raise, so the embedding is a state-and-exception
    monad over a [session]: the two [st.cache_data] memo tables, the world
    outside the script, and a chronological log of the calls that leave the
    script (the call-count instrumentation the properties speak about). *)

From Stdlib Require Import ZArith QArith Qround String Ascii List Lia Lqa.
From stdpp Require Import base option strings pretty gmap list.

Local Open Scope Z_scope.
Local Open Scope string_scope.

(** ** Python values *)

(** An instance of [Exception]; [str(e)] is its message. *)
Inductive py_exception : Type := PyException (message : string).

Definition str (e : py_exception) : string :=
  match e with PyException m => m end.

(** What a call does: it returns a value or raises. *)
Inductive outcome (A : Type) : Type :=
| Returns (a : A)
| Raises (e : py_exception).
Arguments Returns {A} a.
Arguments Raises {A} e.

(** Truthiness of a [str]: only the empty string is falsy. *)
Definition truthy (s : string) : bool :=
  match s with EmptyString => false | String _ _ => true end.

(** The options of the "Download Format" select box. *)
Inductive format : Type := png | pdf | svg.

Definition format_name (f : format) : string :=
  match f with png => "png" | pdf => "pdf" | svg => "svg" end.

Global Instance format_eq_dec : EqDecision format.
Proof. solve_decision. Defined.

(** ** Strings: [str.lower], [str.upper] and [str.title] on ASCII, [str.strip] *)

Definition is_upper (c : ascii) : bool :=
  let n := nat_of_ascii c in (Nat.leb 65 n && Nat.leb n 90)%bool.

Definition is_lower (c : ascii) : bool :=
  let n := nat_of_ascii c in (Nat.leb 97 n && Nat.leb n 122)%bool.

Definition lower_char (c : ascii) : ascii :=
  if is_upper c then ascii_of_nat (nat_of_ascii c + 32) else c.

Definition upper_char (c : ascii) : ascii :=
  if is_lower c then ascii_of_nat (nat_of_ascii c - 32) else c.

(** [str.strip], for the characters [space] holds of: the leading ones are
    dropped, and the trailing ones. *)
Fixpoint lstrip {A} (space : A → bool) (l : list A) : list A :=
  match l with
  | c :: l' => if space c then lstrip space l' else l
  | [] => []
  end.

Definition strip {A} (space : A → bool) (l : list A) : list A :=
  rev (lstrip space (rev (lstrip space l))).

Definition lower (s : string) : string :=
  string_of_list_ascii (map lower_char (list_ascii_of_string s)).

Definition upper (s : string) : string :=
  string_of_list_ascii (map upper_char (list_ascii_of_string s)).

(** [s.replace('_', ' ')] *)
Definition underscores_to_spaces (s : string) : string :=
  string_of_list_ascii
    (map (λ c, if Ascii.eqb c "_" then " "%char else c) (list_ascii_of_string s)).

(** [str.title]: a letter that follows a letter is lowered, any other letter
    is raised. *)
Fixpoint title_chars (after_letter : bool) (l : list ascii) : list ascii :=
  match l with
  | [] => []
  | c :: l' =>
      (if after_letter then lower_char c else upper_char c)
        :: title_chars (is_upper c || is_lower c) l'
  end.

Definition title (s : string) : string :=
  string_of_list_ascii (title_chars false (list_ascii_of_string s)).

(** ** The characters of a [str]

    A Python [str] is a sequence of code points; the strings of this file hold
    its UTF-8 bytes. *)

Definition continuation (b : N) : bool := ((128 <=? b) && (b <? 192))%N.

(** The code points of a byte sequence; a byte that starts no well-formed
    sequence stands for itself. *)
Fixpoint decode_bytes (l : list N) : list N :=
  match l with
  | [] => []
  | b0 :: l1 =>
      match l1 with
      | [] => [b0]
      | b1 :: l2 =>
          if ((192 <=? b0) && (b0 <? 224))%N && continuation b1
          then ((b0 - 192) * 64 + (b1 - 128))%N :: decode_bytes l2
          else
            match l2 with
            | [] => b0 :: decode_bytes l1
            | b2 :: l3 =>
                if ((224 <=? b0) && (b0 <? 240))%N && continuation b1 && continuation b2
                then ((b0 - 224) * 4096 + (b1 - 128) * 64 + (b2 - 128))%N :: decode_bytes l3
                else
                  match l3 with
                  | [] => b0 :: decode_bytes l1
                  | b3 :: l4 =>
                      if ((240 <=? b0) && (b0 <? 248))%N && continuation b1
                         && continuation b2 && continuation b3
                      then ((b0 - 240) * 262144 + (b1 - 128) * 4096
                            + (b2 - 128) * 64 + (b3 - 128))%N :: decode_bytes l4
                      else b0 :: decode_bytes l1
                  end
            end
      end
  end.

Definition encode_point (c : N) : list N :=
  (if c <? 128 then [c]
   else if c <? 2048 then [192 + c / 64; 128 + c mod 64]
   else if c <? 65536 then [224 + c / 4096; 128 + (c / 64) mod 64; 128 + c mod 64]
   else [240 + c / 262144; 128 + (c / 4096) mod 64; 128 + (c / 64) mod 64;
         128 + c mod 64])%N.

Definition code_points (s : string) : list N :=
  decode_bytes (map N_of_ascii (list_ascii_of_string s)).

Definition of_code_points (l : list N) : string :=
  string_of_list_ascii (map ascii_of_N (flat_map encode_point l)).

(** ** What main.py imports *)

(** Everything the script calls and does not define: the [map2poster]
    package, the [float] builtin, [tempfile], [PIL.Image], [os] and the cache
    directory constant.  Each call acts on the world outside the script. *)
Class Environment : Type := {
  world : Type;
  pyfloat : Type;
  theme : Type;
  fonts : Type;
  float : string → outcome pyfloat;
  get_coordinates : string → string → world → outcome (pyfloat * pyfloat) * world;
  load_theme : string → world → outcome theme * world;
  get_available_themes : world → outcome (list string) * world;
  load_fonts : string → world → outcome fonts * world;
  NamedTemporaryFile : string → world → outcome string * world;
  CACHE_DIR_exists : world → bool;
  rmtree_CACHE_DIR : world → outcome unit * world;
  mkdir_CACHE_DIR : world → outcome unit * world;
  Image_open : string → world → outcome unit * world;
  open_rb : string → world → outcome unit * world;
  os_remove : string → world → world;
}.

(** The keyword arguments of the [CreatePoster] call. *)
Record poster_args `{Environment} : Type := PosterArgs {
  arg_city : string;
  arg_country : string;
  arg_point : pyfloat * pyfloat;
  arg_dist : Z;
  arg_output_file : string;
  arg_output_format : format;
  arg_theme : theme;
  arg_width : pyfloat;
  arg_height : pyfloat;
  arg_display_city : option string;
  arg_display_country : option string;
  arg_fonts : option fonts;
  arg_dpi : Z;
}.

Class Compositor `{Environment} : Type :=
  CreatePoster : poster_args → world → outcome unit * world.

(** The values of the sidebar widgets in one run of the script. *)
Record sidebar `{Environment} : Type := Sidebar {
  city : string;
  country : string;
  override_lat : string;
  override_lon : string;
  selected_theme : string;
  dist : Z;
  width : pyfloat;
  height : pyfloat;
  display_city : string;
  display_country : string;
  font_family : string;
  live_mode : bool;
  output_format : format;
  clear_btn : bool;
  generate_btn : bool;
}.

(** Calls that leave the script, in the order they happen. *)
Inductive event `{Environment} : Type :=
| Call_get_available_themes
| Call_get_coordinates (c k : string)
| Call_load_theme (name : string)
| Call_load_fonts (family : string)
| Call_NamedTemporaryFile (suffix : string)
| Call_CreatePoster (a : poster_args)
| Call_rmtree_CACHE_DIR
| Call_mkdir_CACHE_DIR
| Call_Image_open (path : string)
| Call_open_rb (path : string)
| Call_os_remove (path : string)
| St_error (msg : string)
| St_success (msg : string)
| St_info (msg : string)
| St_image (path : string)
| St_download_button (label path file_name mime : string)
| St_markdown (column : nat) (text : string)
| St_rerun.

Section Dashboard.
Context `{Comp : Compositor}.

Definition point : Type := pyfloat * pyfloat.

(** The state a run of the script works on.  The memo tables of
    [st.cache_data] live in the server process: they survive reruns. *)
Record session : Type := Session {
  coords_memo : gmap (string * string) point;
  theme_memo : gmap string theme;
  env : world;
  log : list event;
}.

Definition M (A : Type) : Type := session → outcome A * session.

Global Instance M_ret : MRet M := λ A a s, (Returns a, s).
Global Instance M_bind : MBind M := λ A B f m s,
  match m s with
  | (Returns a, s') => f a s'
  | (Raises e, s') => (Raises e, s')
  end.

(** [try: body / except Exception as e: handler e] *)
Definition try_except {A} (body : M A) (handler : py_exception → M A) : M A :=
  λ s, match body s with
       | (Returns a, s') => (Returns a, s')
       | (Raises e, s') => handler e s'
       end.

Definition emit (e : event) : M unit := λ s,
  (Returns tt, Session (coords_memo s) (theme_memo s) (env s) (log s ++ [e])).

(** A call into the world, logged before it runs. *)
Definition call {A} (e : event) (f : world → outcome A * world) : M A := λ s,
  let '(r, w) := f (env s) in
  (r, Session (coords_memo s) (theme_memo s) w (log s ++ [e])).

Definition lift {A} (r : outcome A) : M A := λ s, (r, s).

(** ** [@st.cache_data]

    Memoisation on the arguments: a stored value is returned without
    running the function; otherwise the function runs and its value is
    stored, unless it raises. *)
Definition st_cache_data {K V} `{Countable K}
    (table : session → gmap K V) (store : gmap K V → session → session)
    (f : K → M V) (k : K) : M V := λ s,
  match table s !! k with
  | Some v => (Returns v, s)
  | None =>
      match f k s with
      | (Returns v, s') => (Returns v, store (<[k := v]> (table s')) s')
      | (Raises e, s') => (Raises e, s')
      end
  end.

Definition store_coords (m : gmap (string * string) point) (s : session) : session :=
  Session m (theme_memo s) (env s) (log s).

Definition store_theme (m : gmap string theme) (s : session) : session :=
  Session (coords_memo s) m (env s) (log s).

Definition get_cached_coordinates (c k : string) : M point :=
  st_cache_data coords_memo store_coords
    (λ ck, call (Call_get_coordinates ck.1 ck.2) (get_coordinates ck.1 ck.2)) (c, k).

Definition get_cached_theme (theme_name : string) : M theme :=
  st_cache_data theme_memo store_theme
    (λ n, call (Call_load_theme n) (load_theme n)) theme_name.

(** ** [generate] *)

(** Step 1, "Handle coordinates". *)
Definition handle_coordinates (ui : sidebar) : M point :=
  if truthy (override_lat ui) && truthy (override_lon ui)
  then lat ← lift (float (override_lat ui));
       lon ← lift (float (override_lon ui));
       mret (lat, lon)
  else get_cached_coordinates (city ui) (country ui).

Definition dpi_of (ui : sidebar) : Z := if live_mode ui then 72 else 300.

Definition CreatePoster_args (ui : sidebar) (pt : point) (th : theme)
    (output_path : string) (custom_fonts : option fonts) : poster_args :=
  {| arg_city := city ui;
     arg_country := country ui;
     arg_point := pt;
     arg_dist := dist ui;
     arg_output_file := output_path;
     arg_output_format := output_format ui;
     arg_theme := th;
     arg_width := width ui;
     arg_height := height ui;
     arg_display_city := if truthy (display_city ui) then Some (display_city ui) else None;
     arg_display_country := if truthy (display_country ui) then Some (display_country ui) else None;
     arg_fonts := custom_fonts;
     arg_dpi := dpi_of ui |}.

(** [load_fonts(font_family) if font_family else None] *)
Definition load_custom_fonts (ui : sidebar) : M (option fonts) :=
  if truthy (font_family ui)
  then f ← call (Call_load_fonts (font_family ui)) (load_fonts (font_family ui));
       mret (Some f)
  else mret None.

(** Steps 2 to 4: theme, temp file, poster. *)
Definition generate_poster (ui : sidebar) (pt : point) : M string :=
  th ← get_cached_theme (selected_theme ui);
  output_path ← call (Call_NamedTemporaryFile ("." ++ lower (format_name (output_format ui))))
                     (NamedTemporaryFile ("." ++ lower (format_name (output_format ui))));
  custom_fonts ← load_custom_fonts ui;
  call (Call_CreatePoster (CreatePoster_args ui pt th output_path custom_fonts))
       (CreatePoster (CreatePoster_args ui pt th output_path custom_fonts));;
  mret output_path.

(** The body of the [try]. *)
Definition generate_body (ui : sidebar) : M string :=
  pt ← handle_coordinates ui;
  generate_poster ui pt.

Definition generate (ui : sidebar) : M (option string) :=
  try_except (p ← generate_body ui; mret (Some p))
             (λ e, emit (St_error ("Error: " ++ str e));; mret None).

(** ** The "Clear Cache" button *)

(** How a run of the script ends: at its last line, or at [st.rerun()],
    which stops the run and starts the script again. *)
Inductive script_end : Type := Finished | Rerun.

Definition clear_cache : M script_end := λ s,
  if CACHE_DIR_exists (env s)
  then (call Call_rmtree_CACHE_DIR rmtree_CACHE_DIR;;
        call Call_mkdir_CACHE_DIR mkdir_CACHE_DIR;;
        emit (St_success "Cache cleared!");;
        emit St_rerun;;
        mret Rerun) s
  else (emit (St_info "Cache is already empty.");; mret Finished) s.

(** ** [main] *)

Definition mime (f : format) : string :=
  if decide (f = png) then "image/" ++ lower (format_name f)
  else if decide (f = pdf) then "application/pdf"
  else "image/svg+xml".

(** Steps 5 and 6 and the cleanup, for a truthy [file_path]. *)
Definition show_result (ui : sidebar) (file_path : string) : M unit :=
  (if String.eqb (lower (format_name (output_format ui))) "png"
   then call (Call_Image_open file_path) (Image_open file_path);;
        emit (St_image file_path)
   else emit (St_info ("Preview not available for " ++ upper (format_name (output_format ui))
                         ++ ". Please download the file below.")));;
  call (Call_open_rb file_path) (open_rb file_path);;
  emit (St_download_button
          ("💾 Download " ++ upper (format_name (output_format ui)))
          file_path
          (lower (city ui) ++ "_" ++ selected_theme ui ++ "." ++ lower (format_name (output_format ui)))
          (mime (output_format ui)));;
  call (Call_os_remove file_path) (λ w, (Returns tt, os_remove file_path w)).

Fixpoint welcome_columns (i : nat) (themes : list string) : M unit :=
  match themes with
  | [] => mret tt
  | theme_name :: rest =>
      emit (St_markdown (i mod 4)
              ("🔹 **" ++ title (underscores_to_spaces theme_name) ++ "**"));;
      welcome_columns (S i) rest
  end.

(** One run of the script.  Pure presentation (page config, titles,
    headers, dividers, the spinner) is left out; the widgets are read from
    [ui]. *)
Definition main (ui : sidebar) : M script_end :=
  themes ← call Call_get_available_themes get_available_themes;
  cleared ← (if clear_btn ui then clear_cache else mret Finished);
  match cleared with
  | Rerun => mret Rerun
  | Finished =>
      let should_generate := generate_btn ui || live_mode ui in
      if should_generate
      then file_path ← generate ui;
           match file_path with
           | Some p => (if truthy p then show_result ui p else mret tt);; mret Finished
           | None => mret Finished
           end
      else emit (St_info "💡 Adjust the parameters in the sidebar and click **Render Map** to start.");;
           welcome_columns 0 (take 12 themes);;
           mret Finished
  end.

(** The session after [st.error(f"Error: {e}")]. *)
Definition shown_error (e : py_exception) (s : session) : session :=
  Session (coords_memo s) (theme_memo s) (env s)
          (log s ++ [St_error ("Error: " ++ str e)]).

(** The run the Streamlit server makes for one interaction: the script,
    and once more with the buttons released when it asked for a rerun. *)
Definition released (ui : sidebar) : sidebar :=
  {| city := city ui; country := country ui;
     override_lat := override_lat ui; override_lon := override_lon ui;
     selected_theme := selected_theme ui;
     dist := dist ui; width := width ui; height := height ui;
     display_city := display_city ui; display_country := display_country ui;
     font_family := font_family ui;
     live_mode := live_mode ui; output_format := output_format ui;
     clear_btn := false; generate_btn := false |}.

Definition interaction (ui : sidebar) : M script_end :=
  r ← main ui;
  match r with
  | Rerun => main (released ui)
  | Finished => mret Finished
  end.

(** The same widgets with both coordinate fields left empty. *)
Definition without_override (ui : sidebar) : sidebar :=
  {| city := city ui; country := country ui;
     override_lat := ""; override_lon := "";
     selected_theme := selected_theme ui;
     dist := dist ui; width := width ui; height := height ui;
     display_city := display_city ui; display_country := display_country ui;
     font_family := font_family ui;
     live_mode := live_mode ui; output_format := output_format ui;
     clear_btn := clear_btn ui; generate_btn := generate_btn ui |}.

(** The same widgets with the font field left empty. *)
Definition without_font (ui : sidebar) : sidebar :=
  {| city := city ui; country := country ui;
     override_lat := override_lat ui; override_lon := override_lon ui;
     selected_theme := selected_theme ui;
     dist := dist ui; width := width ui; height := height ui;
     display_city := display_city ui; display_country := display_country ui;
     font_family := "";
     live_mode := live_mode ui; output_format := output_format ui;
     clear_btn := clear_btn ui; generate_btn := generate_btn ui |}.

(** ** What a computation writes to the log

    [logs P Q m]: from any session, [m] only appends to the log, every
    appended event satisfies [P], and a returned value satisfies [Q]. *)
Definition logs {A} (P : event → Prop) (Q : A → Prop) (m : M A) : Prop :=
  ∀ s, ∃ evs, log (m s).2 = (log s ++ evs)%list ∧ Forall P evs ∧
              ∀ a, (m s).1 = Returns a → Q a.

(** [keeps f m]: [m] leaves the component [f] of the session as it was. *)
Definition keeps {A B} (f : session → B) (m : M A) : Prop :=
  ∀ s, f (m s).2 = f s.

(** ** The theme select box *)

(** [list.index]: the first position of [x], a ValueError when there is
    none. *)
Fixpoint list_index (x : string) (l : list string) : outcome nat :=
  match l with
  | [] => Raises (PyException ("'" ++ x ++ "' is not in list"))
  | y :: l' =>
      if String.eqb y x then Returns 0%nat
      else match list_index x l' with
           | Returns i => Returns (S i)
           | Raises e => Raises e
           end
  end.

(** [themes.index("terracotta") if "terracotta" in themes else 0] *)
Definition default_theme_index (themes : list string) : outcome nat :=
  if bool_decide ("terracotta" ∈ themes) then list_index "terracotta" themes
  else Returns 0%nat.

(** What [st.selectbox(options, index)] shows first: nothing for no options,
    the option at [index] otherwise, and an error for an index out of range. *)
Definition selectbox (options : list string) (index : nat) : outcome (option string) :=
  match options with
  | [] => Returns None
  | _ :: _ =>
      match options !! index with
      | Some o => Returns (Some o)
      | None => Raises (PyException
                  "Selectbox index must be greater than or equal to 0 and less than the length of options.")
      end
  end.

(** The theme selected before the user touches the box. *)
Definition default_theme (themes : list string) : outcome (option string) :=
  match default_theme_index themes with
  | Returns i => selectbox themes i
  | Raises e => Raises e
  end.

(** ** Counting and comparing *)

(** [emits R m]: from any session, [m] only appends to the log, and the
    appended events, taken together, satisfy [R]. *)
Definition emits {A} (R : list event → Prop) (m : M A) : Prop :=
  ∀ s, ∃ evs, log (m s).2 = (log s ++ evs)%list ∧ R evs.

(** How many events of a kind a log holds. *)
Definition count_events (kind : event → bool) (l : list event) : nat :=
  length (List.filter kind l).

Definition is_poster_call (e : event) : bool :=
  match e with Call_CreatePoster _ => true | _ => false end.

Definition is_temp_file_call (e : event) : bool :=
  match e with Call_NamedTemporaryFile _ => true | _ => false end.

Definition not_an_error (e : event) : Prop := ∀ msg, e ≠ St_error msg.

(** The error messages shown, in a log. *)
Definition error_messages (l : list event) : list string :=
  omap (λ e, match e with St_error m => Some m | _ => None end) l.

(** The events of steps 5 and 6 and of the cleanup. *)
Definition is_result_event (e : event) : bool :=
  match e with
  | Call_Image_open _ | St_image _ | Call_open_rb _
  | St_download_button _ _ _ _ | Call_os_remove _ => true
  | _ => false
  end.

(** An event of steps 5 and 6 and of the cleanup on the file [p]. *)
Definition shows_file (p : string) (e : event) : Prop :=
  match e with
  | Call_Image_open q | St_image q | Call_open_rb q
  | St_download_button _ q _ _ | Call_os_remove q => q = p
  | St_info _ => True
  | _ => False
  end.

(** Nothing memoised in [s] is missing or different in [s']. *)
Definition memo_grows (s s' : session) : Prop :=
  coords_memo s ⊆ coords_memo s' ∧ theme_memo s ⊆ theme_memo s'.

(** [only_grows m]: [m] never drops or changes a memoised entry. *)
Definition only_grows {A} (m : M A) : Prop := ∀ s, memo_grows s (m s).2.

(** The session after the script has run on each of [uis] in turn. *)
Definition after_runs (uis : list sidebar) (s : session) : session :=
  foldl (λ s ui, (main ui s).2) s uis.

(** The welcome line of a theme. *)
Definition welcome_line (theme_name : string) : string :=
  "🔹 **" ++ title (underscores_to_spaces theme_name) ++ "**".

(** ** The events of a run

    [main_event ui e]: [e] is an event that a run of the script on the widgets
    [ui] may log, with the condition on the widgets under which it may. *)
Inductive main_event (ui : sidebar) : event → Prop :=
| ev_themes : main_event ui Call_get_available_themes
| ev_rmtree : clear_btn ui = true → main_event ui Call_rmtree_CACHE_DIR
| ev_mkdir : clear_btn ui = true → main_event ui Call_mkdir_CACHE_DIR
| ev_cleared : clear_btn ui = true → main_event ui (St_success "Cache cleared!")
| ev_rerun : clear_btn ui = true → main_event ui St_rerun
| ev_already_empty :
    clear_btn ui = true → main_event ui (St_info "Cache is already empty.")
| ev_coordinates :
    generate_btn ui || live_mode ui = true →
    truthy (override_lat ui) && truthy (override_lon ui) = false →
    main_event ui (Call_get_coordinates (city ui) (country ui))
| ev_theme :
    generate_btn ui || live_mode ui = true →
    main_event ui (Call_load_theme (selected_theme ui))
| ev_temp_file :
    generate_btn ui || live_mode ui = true →
    main_event ui (Call_NamedTemporaryFile ("." ++ lower (format_name (output_format ui))))
| ev_fonts :
    generate_btn ui || live_mode ui = true →
    truthy (font_family ui) = true →
    main_event ui (Call_load_fonts (font_family ui))
| ev_poster pt th path fs :
    generate_btn ui || live_mode ui = true →
    (is_Some fs ↔ truthy (font_family ui) = true) →
    main_event ui (Call_CreatePoster (CreatePoster_args ui pt th path fs))
| ev_error msg :
    generate_btn ui || live_mode ui = true → main_event ui (St_error msg)
| ev_image_open path :
    generate_btn ui || live_mode ui = true → output_format ui = png →
    main_event ui (Call_Image_open path)
| ev_image path :
    generate_btn ui || live_mode ui = true → output_format ui = png →
    main_event ui (St_image path)
| ev_no_preview :
    generate_btn ui || live_mode ui = true → output_format ui ≠ png →
    main_event ui (St_info ("Preview not available for "
                              ++ upper (format_name (output_format ui))
                              ++ ". Please download the file below."))
| ev_open path :
    generate_btn ui || live_mode ui = true → main_event ui (Call_open_rb path)
| ev_download path :
    generate_btn ui || live_mode ui = true →
    main_event ui
      (St_download_button
         ("💾 Download " ++ upper (format_name (output_format ui)))
         path
         (lower (city ui) ++ "_" ++ selected_theme ui ++ "."
            ++ lower (format_name (output_format ui)))
         (mime (output_format ui)))
| ev_remove path :
    generate_btn ui || live_mode ui = true → main_event ui (Call_os_remove path)
| ev_welcome :
    generate_btn ui || live_mode ui = false →
    main_event ui
      (St_info "💡 Adjust the parameters in the sidebar and click **Render Map** to start.")
| ev_welcome_line i theme_name :
    generate_btn ui || live_mode ui = false → (i < 4)%nat →
    main_event ui (St_markdown i (welcome_line theme_name)).

End Dashboard.

(** ** The poster engine

    [map2poster.core] and [map2poster.font_management] are the engine behind
    the imports of main.py.  Its components are modelled from the
    specification: Location Resolver, Theme Registry, Font Manager, Street
    Network Provider and Poster Compositor, over one cache root and the
    external capabilities they query.  Floats are rationals here. *)

(** Python's [round] to an integer: to the nearest, ties to even. *)
Definition py_round (q : Q) : Z :=
  let f := Qfloor q in
  match (q - inject_Z f ?= 1 # 2)%Q with
  | Lt => f
  | Gt => f + 1
  | Eq => if Z.even f then f else f + 1
  end.

(** Modelled from the spec: an entry of [road_styles] in the Theme of
    map2poster.core, "{color, width, z_order}". *)
Record road_style : Type := RoadStyle {
  color : string;
  stroke_width : Q;
  z_order : Z;
}.

(** Modelled from the spec: the Theme of map2poster.core. *)
Record Theme : Type := MkTheme {
  name : string;
  background_color : string;
  water_color : string;
  green_color : string;
  road_styles : gmap string road_style;
  label_color : string;
  default_font : string;
}.

(** Modelled from the spec: the StreetNetwork of map2poster.core; an edge is
    its geometry and its road class. *)
Record StreetNetwork : Type := MkStreetNetwork {
  center : Q * Q;
  radius_m : Z;
  nodes : list Z;
  edges : list (string * string);
}.

(** Modelled from the spec: the [resolved_path_or_handle] of a FontSet of
    map2poster.font_management, the theme default or a fetched asset. *)
Inductive font_handle : Type :=
| ThemeDefault
| FontAsset (asset : string).

(** Modelled from the spec: the FontSet of map2poster.font_management. *)
Record FontSet : Type := MkFontSet {
  requested_family : option string;
  resolved_path_or_handle : font_handle;
  is_fallback : bool;
}.

(** Modelled from the spec: the RenderRequest of map2poster.core, with the
    location as the city, the country and the resolved point. *)
Record RenderRequest : Type := MkRenderRequest {
  req_city : string;
  req_country : string;
  req_point : Q * Q;
  req_theme : Theme;
  req_network : StreetNetwork;
  req_fonts : FontSet;
  width_in : Q;
  height_in : Q;
  dpi : Z;
  req_display_city : option string;
  req_display_country : option string;
  req_output_format : format;
}.

(** Modelled from the spec: the RenderedArtifact of map2poster.core, as the
    scene it holds: canvas, background, the styled edges in drawing order, the
    title block, and the pixel size of a raster. *)
Record RenderedArtifact : Type := MkArtifact {
  art_format : format;
  pixel_dimensions : option (Z * Z);
  physical_size : Q * Q;
  art_background : string;
  art_roads : list (string * road_style);
  city_label : string;
  country_label : string;
  art_label_color : string;
  art_label_font : string;
  art_fonts : FontSet;
}.

(** Modelled from the spec: the cache root of map2poster.core and its three
    namespaces. *)
Record cache_root : Type := MkCache {
  geocode_ns : gmap string (Q * Q);
  network_ns : gmap (Z * Z * Z) StreetNetwork;
  font_ns : gmap string string;
}.

Definition empty_root : cache_root := MkCache ∅ ∅ ∅.

(** The world of the engine: the cache root directory ([None] while it does
    not exist), the queries sent to each external capability so far, the
    files written, and the number of temporary files handed out. *)
Record engine_world : Type := MkWorld {
  cache : option cache_root;
  geocoding_calls : list (string * string);
  font_fetches : list string;
  network_fetches : list (Q * Q * Z);
  files : gmap string RenderedArtifact;
  temp_files : nat;
}.

(** The external capabilities and the theme source.  A capability may answer
    the same query differently over time: it sees how many queries came
    before.  With them come what the engine takes from Python: [float], and
    the Unicode tables behind [str.isspace] and [str.casefold], by code
    point. *)
Class Capabilities : Type := {
  geocoder : nat → string → string → option (Q * Q);
  font_catalog : nat → string → option string;
  map_data : nat → Q * Q → Z → option (list Z * list (string * string));
  presets : list Theme;
  fallback_style : road_style;
  coordinate_precision : nat;
  parse_float : string → outcome Q;
  isspace : N → bool;
  case_fold : N → list N;
}.

Module Engine.
Section Engine.
Context `{Cap : Capabilities}.

Definition root (w : engine_world) : cache_root :=
  default empty_root (cache w).

Definition with_cache (c : option cache_root) (w : engine_world) : engine_world :=
  MkWorld c (geocoding_calls w) (font_fetches w) (network_fetches w) (files w) (temp_files w).

(** *** Location Resolver *)

(** Modelled from the spec: the normalisation of [get_coordinates]
    (map2poster.core), "trim, case-fold": the surrounding whitespace is
    stripped, then every character is case-folded. *)
Definition normalize (s : string) : string :=
  of_code_points (flat_map case_fold (strip isspace (code_points s))).

Definition blank (l : list N) : Prop := Forall (λ c, isspace c = true) l.

(** Two characters that differ at most in case: the same character, or two
    characters that are not whitespace and case-fold alike. *)
Definition same_letter (a b : N) : Prop :=
  a = b ∨ (isspace a = false ∧ isspace b = false ∧ case_fold a = case_fold b).

(** Two strings that differ only in surrounding whitespace and in letter
    case: each is a core between blanks, and the cores agree character by
    character up to case. *)
Definition variant (x y : string) : Prop :=
  ∃ lx cx rx ly cy ry,
    code_points x = (lx ++ cx ++ rx)%list ∧
    code_points y = (ly ++ cy ++ ry)%list ∧
    blank lx ∧ blank rx ∧ blank ly ∧ blank ry ∧
    Forall2 same_letter cx cy.

(** Modelled from the spec: the geocode cache key of [get_coordinates],
    the normalised "city,country". *)
Definition geocode_key (c k : string) : string :=
  normalize c ++ "," ++ normalize k.

(** Modelled from the spec: [get_coordinates] of map2poster.core, the
    Location Resolver [resolve(city, country) -> point].  A cache hit
    returns the stored point with no network access; a miss queries the
    geocoding capability, stores a found point under the normalised key and
    returns it, and fails with a ResolutionError carrying the original query
    otherwise. *)
Definition resolve (c k : string) (w : engine_world) : outcome (Q * Q) * engine_world :=
  match geocode_ns (root w) !! geocode_key c k with
  | Some p => (Returns p, w)
  | None =>
      let asked := MkWorld (cache w) (geocoding_calls w ++ [(c, k)]) (font_fetches w)
                           (network_fetches w) (files w) (temp_files w) in
      match geocoder (length (geocoding_calls w)) c k with
      | Some p =>
          (Returns p,
           with_cache (Some (MkCache (<[geocode_key c k := p]> (geocode_ns (root w)))
                                     (network_ns (root w)) (font_ns (root w)))) asked)
      | None => (Raises (PyException ("ResolutionError: " ++ c ++ ", " ++ k)), asked)
      end
  end.

(** *** Theme Registry *)

(** Modelled from the spec: [get_available_themes] of map2poster.core,
    [list_themes() -> ordered_sequence of names]. *)
Definition list_themes : list string := map name presets.

(** Modelled from the spec: [load_theme] of map2poster.core; an unknown name
    fails with ThemeNotFoundError. *)
Definition load_theme_by_name (n : string) : outcome Theme :=
  match find (λ t, String.eqb (name t) n) presets with
  | Some t => Returns t
  | None => Raises (PyException ("ThemeNotFoundError: " ++ n))
  end.

(** *** Font Manager *)

(** Modelled from the spec: [load_fonts] of map2poster.font_management,
    [resolve_font(family) -> FontSet].  No family: the theme default,
    untouched.  A family: the font cache, then the font catalog, whose asset
    is persisted; a failed fetch falls back to the theme default and marks
    [is_fallback]; it never fails. *)
Definition resolve_font (family : option string) (w : engine_world) : FontSet * engine_world :=
  match family with
  | None => (MkFontSet None ThemeDefault false, w)
  | Some f =>
      if truthy f then
        match font_ns (root w) !! f with
        | Some a => (MkFontSet (Some f) (FontAsset a) false, w)
        | None =>
            let asked := MkWorld (cache w) (geocoding_calls w) (font_fetches w ++ [f])
                                 (network_fetches w) (files w) (temp_files w) in
            match font_catalog (length (font_fetches w)) f with
            | Some a =>
                (MkFontSet (Some f) (FontAsset a) false,
                 with_cache (Some (MkCache (geocode_ns (root w)) (network_ns (root w))
                                           (<[f := a]> (font_ns (root w))))) asked)
            | None => (MkFontSet (Some f) ThemeDefault true, asked)
            end
        end
      else (MkFontSet None ThemeDefault false, w)
  end.

(** *** Street Network Provider *)

(** Modelled from the spec: the rounding of the network cache key of
    map2poster.core, a coordinate at the fixed precision as the integer
    [round(x * 10^precision)]. *)
Definition rounded (x : Q) : Z :=
  py_round (x * inject_Z (10 ^ Z.of_nat coordinate_precision)).

(** Modelled from the spec: the network cache key of map2poster.core,
    "(rounded_lat, rounded_lon, radius_m)". *)
Definition network_key (p : Q * Q) (r : Z) : Z * Z * Z :=
  (rounded p.1, rounded p.2, r).

(** Modelled from the spec: the Street Network Provider of map2poster.core,
    [fetch(point, radius_m) -> StreetNetwork]; a failed query is a
    NetworkDataError. *)
Definition fetch (p : Q * Q) (r : Z) (w : engine_world) : outcome StreetNetwork * engine_world :=
  match network_ns (root w) !! network_key p r with
  | Some n => (Returns n, w)
  | None =>
      let asked := MkWorld (cache w) (geocoding_calls w) (font_fetches w)
                           (network_fetches w ++ [(p, r)]) (files w) (temp_files w) in
      match map_data (length (network_fetches w)) p r with
      | Some (ns, es) =>
          let n := MkStreetNetwork p r ns es in
          (Returns n,
           with_cache (Some (MkCache (geocode_ns (root w))
                                     (<[network_key p r := n]> (network_ns (root w)))
                                     (font_ns (root w)))) asked)
      | None => (Raises (PyException "NetworkDataError"), asked)
      end
  end.

(** *** Poster Compositor *)

(** Modelled from the spec: the formats of the compositor of
    map2poster.core, png being the raster one. *)
Definition is_raster (f : format) : bool :=
  match f with png => true | pdf | svg => false end.

(** Modelled from the spec: step 4 of the compositor of map2poster.core, an
    edge with the style of its road class or the fallback style. *)
Definition styled (t : Theme) (e : string * string) : string * road_style :=
  (e.1, default fallback_style (road_styles t !! e.2)).

(** Modelled from the spec: the font the compositor of map2poster.core sets
    the labels in. *)
Definition font_of (t : Theme) (f : FontSet) : string :=
  match resolved_path_or_handle f with
  | ThemeDefault => default_font t
  | FontAsset a => a
  end.

(** Modelled from the spec: the Poster Compositor of map2poster.core,
    [render(RenderRequest) -> RenderedArtifact], steps 1 to 7 (the water and
    green layers, which no field of the data model carries, are left out). *)
Definition render (r : RenderRequest) : RenderedArtifact :=
  {| art_format := req_output_format r;
     pixel_dimensions :=
       if is_raster (req_output_format r)
       then Some (py_round (width_in r * inject_Z (dpi r)),
                  py_round (height_in r * inject_Z (dpi r)))
       else None;
     physical_size := (width_in r, height_in r);
     art_background := background_color (req_theme r);
     art_roads := map (styled (req_theme r)) (edges (req_network r));
     city_label := default (req_city r) (req_display_city r);
     country_label := default (req_country r) (req_display_country r);
     art_label_color := label_color (req_theme r);
     art_label_font := font_of (req_theme r) (req_fonts r);
     art_fonts := req_fonts r |}.

Definition with_font_fetches (x : list string) (w : engine_world) : engine_world :=
  MkWorld (cache w) (geocoding_calls w) x (network_fetches w) (files w) (temp_files w).

(** The artifact with another font set recorded. *)
Definition with_fonts (f : FontSet) (a : RenderedArtifact) : RenderedArtifact :=
  {| art_format := art_format a;
     pixel_dimensions := pixel_dimensions a;
     physical_size := physical_size a;
     art_background := art_background a;
     art_roads := art_roads a;
     city_label := city_label a;
     country_label := country_label a;
     art_label_color := art_label_color a;
     art_label_font := art_label_font a;
     art_fonts := f |}.

(** *** The engine as the environment of main.py *)

Definition temp_name (n : nat) (suffix : string) : string :=
  "/tmp/tmp" ++ pretty n ++ suffix.

Global Instance engine_environment : Environment := {|
  world := engine_world;
  pyfloat := Q;
  theme := Theme;
  fonts := FontSet;
  float := parse_float;
  get_coordinates := resolve;
  load_theme := λ n w, (load_theme_by_name n, w);
  get_available_themes := λ w, (Returns list_themes, w);
  load_fonts := λ f w, let '(fs, w') := resolve_font (Some f) w in (Returns fs, w');
  NamedTemporaryFile := λ suffix w,
    (Returns (temp_name (temp_files w) suffix),
     MkWorld (cache w) (geocoding_calls w) (font_fetches w) (network_fetches w)
             (files w) (S (temp_files w)));
  CACHE_DIR_exists := λ w, bool_decide (is_Some (cache w));
  rmtree_CACHE_DIR := λ w, (Returns tt, with_cache None w);
  mkdir_CACHE_DIR := λ w,
    (Returns tt, match cache w with Some _ => w | None => with_cache (Some empty_root) w end);
  Image_open := λ path w,
    (match files w !! path with
     | Some _ => Returns tt
     | None => Raises (PyException ("cannot identify image file " ++ path))
     end, w);
  open_rb := λ path w, (Returns tt, w);
  os_remove := λ path w,
    MkWorld (cache w) (geocoding_calls w) (font_fetches w) (network_fetches w)
            (delete path (files w)) (temp_files w);
|}.

(** Modelled from the spec: the RenderRequest that [create_poster] of
    map2poster.core builds from its keyword arguments; no fonts given means
    the theme default. *)
Definition request (a : poster_args) (n : StreetNetwork) : RenderRequest :=
  {| req_city := arg_city a;
     req_country := arg_country a;
     req_point := arg_point a;
     req_theme := arg_theme a;
     req_network := n;
     req_fonts := default (MkFontSet None ThemeDefault false) (arg_fonts a);
     width_in := arg_width a;
     height_in := arg_height a;
     dpi := arg_dpi a;
     req_display_city := arg_display_city a;
     req_display_country := arg_display_country a;
     req_output_format := arg_output_format a |}.

(** Modelled from the spec: [create_poster] of map2poster.core, the render
    call boundary: the street network around the point is fetched, the
    request is rendered, and the artifact is written to the output file.  A
    failed fetch propagates and writes nothing. *)
Definition create_poster (a : poster_args) (w : engine_world) : outcome unit * engine_world :=
  match fetch (arg_point a) (arg_dist a) w with
  | (Returns n, w') =>
      (Returns tt,
       MkWorld (cache w') (geocoding_calls w') (font_fetches w') (network_fetches w')
               (<[arg_output_file a := render (request a n)]> (files w')) (temp_files w'))
  | (Raises e, w') => (Raises e, w')
  end.

Global Instance engine_compositor : Compositor := create_poster.

(** A server process that has resolved nothing yet. *)
Definition fresh (w : engine_world) : session := Session ∅ ∅ w [].

(** What the Font Manager reads of the world. *)
Definition font_view (s : session) : gmap string string * list string :=
  (font_ns (root (env s)), font_fetches (env s)).

(** Every memoised point is also in the geocode cache, under the normalised
    key of its query. *)
Definition memo_backed (s : session) : Prop :=
  ∀ c k p, coords_memo s !! (c, k) = Some p →
           geocode_ns (root (env s)) !! geocode_key c k = Some p.

End Engine.
End Engine.

(** ** A small world to run the script in *)

Module Demo.

Definition digit (c : ascii) : option Z :=
  let n := nat_of_ascii c in
  if (Nat.leb 48 n && Nat.leb n 57)%bool then Some (Z.of_nat n - 48) else None.

(** The digits of [l] read after [acc], with how many were read. *)
Fixpoint digits (acc : Z) (count : nat) (l : list ascii) : option (Z * nat) :=
  match l with
  | [] => Some (acc, count)
  | c :: l' =>
      match digit c with
      | Some d => digits (10 * acc + d) (S count) l'
      | None => None
      end
  end.

Fixpoint split_at_dot (l : list ascii) : list ascii * option (list ascii) :=
  match l with
  | [] => ([], None)
  | c :: l' =>
      if Ascii.eqb c "." then ([], Some l')
      else let '(a, b) := split_at_dot l' in (c :: a, b)
  end.

Definition unsigned_decimal (l : list ascii) : option Q :=
  let '(whole, frac) := split_at_dot l in
  match digits 0 0 whole, frac with
  | Some (n, S _), None => Some (inject_Z n)
  | Some (n, i), Some fr =>
      match digits n 0 fr with
      | Some (m, k) =>
          if (i + k =? 0)%nat then None else Some (m # Pos.of_nat (10 ^ k))
      | None => None
      end
  | _, _ => None
  end.

(** [float] on plain decimal literals: an optional sign, digits and an
    optional fraction.  Exponents, inf, nan and surrounding blanks are a
    ValueError in this small world. *)
Definition decimal_literal (s : string) : outcome Q :=
  let l := list_ascii_of_string s in
  let r := match l with
           | "-"%char :: l' => Qopp <$> unsigned_decimal l'
           | "+"%char :: l' => unsigned_decimal l'
           | _ => unsigned_decimal l
           end in
  match r with
  | Some q => Returns q
  | None => Raises (PyException ("could not convert string to float: '" ++ s ++ "'"))
  end.

(** The characters [str.isspace] holds of. *)
Definition unicode_isspace (c : N) : bool :=
  ((9 <=? c) && (c <=? 13) || (28 <=? c) && (c <=? 32) || (c =? 133) || (c =? 160)
   || (c =? 5760) || (8192 <=? c) && (c <=? 8202) || (c =? 8232) || (c =? 8233)
   || (c =? 8239) || (c =? 8287) || (c =? 12288))%N.

(** Case folding for Basic Latin and the Latin-1 Supplement; the other
    characters are left as they are in this small world. *)
Definition latin_case_fold (c : N) : list N :=
  (if (65 <=? c) && (c <=? 90) then [c + 32]
   else if (192 <=? c) && (c <=? 222) && negb (c =? 215) then [c + 32]
   else if c =? 223 then [115; 115]
   else if c =? 181 then [956]
   else [c])%N.

Definition terracotta : Theme :=
  {| name := "terracotta";
     background_color := "#F5EDE4";
     water_color := "#A8C4C4";
     green_color := "#E8E0D0";
     road_styles := {[ "motorway" := RoadStyle "#A0522D" (12 # 10) 5;
                       "residential" := RoadStyle "#D9A08A" (4 # 10) 1 ]};
     label_color := "#8B4513";
     default_font := "Roboto" |}.

(** New York is known to the geocoder, the font catalog is down, and the map
    data source answers every query with two streets. *)
Definition capabilities : Capabilities := {|
  geocoder := λ _ c k,
    if (String.eqb c "New York" && String.eqb k "USA")%bool
    then Some (407128 # 10000, - 740060 # 10000)%Q else None;
  font_catalog := λ _ _, None;
  map_data := λ _ _ _, Some ([1; 2; 3], [("Broadway", "motorway"); ("Pine St", "footway")]);
  presets := [terracotta];
  fallback_style := RoadStyle "#888888" (3 # 10) 0;
  coordinate_precision := 4;
  parse_float := decimal_literal;
  isspace := unicode_isspace;
  case_fold := latin_case_fold;
|}.

#[local] Existing Instance capabilities.

Definition no_cache : engine_world := MkWorld None [] [] [] ∅ 0.

Definition widgets (c k lat lon dc dk font : string) (live : bool) (f : format)
    (clear gen : bool) : sidebar :=
  {| city := c; country := k;
     override_lat := lat; override_lon := lon;
     selected_theme := "terracotta";
     dist := 12000; width := (12 # 1)%Q; height := (16 # 1)%Q;
     display_city := dc; display_country := dk;
     font_family := font;
     live_mode := live; output_format := f;
     clear_btn := clear; generate_btn := gen |}.

(** The defaults of the sidebar, "Render Map" pressed. *)
Definition new_york : sidebar :=
  widgets "New York" "USA" "" "" "" "" "" false png false true.

(** The defaults of the sidebar, "Clear Cache" pressed. *)
Definition press_clear : sidebar :=
  widgets "New York" "USA" "" "" "" "" "" false png true false.

Definition overridden : sidebar :=
  widgets "Atlantis" "Nowhere" "40.7128" "-74.0060" "" "" "" false png false true.

Definition half_override : sidebar :=
  widgets "New York" "USA" "north" "" "" "" "" false png false true.

Definition bad_override : sidebar :=
  widgets "New York" "USA" "40.7128" "west" "" "" "" false png false true.

Definition with_inter : sidebar :=
  widgets "New York" "USA" "" "" "" "" "Inter" false svg false true.

Definition renamed : sidebar :=
  widgets "New York" "USA" "" "" "NYC" "" "" true pdf false false.

Definition ny : Q * Q := (407128 # 10000, - 740060 # 10000)%Q.

(** The queries [get_coordinates] was called with, in a log. *)
Definition resolver_queries (l : list event) : list (string * string) :=
  omap (λ e, match e with Call_get_coordinates c k => Some (c, k) | _ => None end) l.

(** The points the compositor was called with, in a log. *)
Definition composed_points (l : list event) : list (Q * Q) :=
  omap (λ e, match e with Call_CreatePoster a => Some (arg_point a) | _ => None end) l.

Definition small_poster : poster_args :=
  {| arg_city := "New York"; arg_country := "USA";
     arg_point := ny; arg_dist := 1000;
     arg_output_file := "/tmp/poster.png"; arg_output_format := png;
     arg_theme := terracotta;
     arg_width := (43 # 10)%Q; arg_height := (5 # 2)%Q;
     arg_display_city := None; arg_display_country := None;
     arg_fonts := None; arg_dpi := 25 |}.

(** A city the geocoder does not know. *)
Definition atlantis : sidebar :=
  widgets "Atlantis" "Nowhere" "" "" "" "" "" false png false true.

(** A theme that is not in the registry. *)
Definition no_such_theme : sidebar :=
  {| city := "New York"; country := "USA";
     override_lat := ""; override_lon := "";
     selected_theme := "midnight";
     dist := 12000; width := (12 # 1)%Q; height := (16 # 1)%Q;
     display_city := ""; display_country := "";
     font_family := "";
     live_mode := false; output_format := png;
     clear_btn := false; generate_btn := true |}.

(** Nothing pressed, live mode off. *)
Definition idle : sidebar :=
  widgets "New York" "USA" "" "" "" "" "" false png false false.

(** "Clear Cache" pressed while live mode is on. *)
Definition live_clear : sidebar :=
  widgets "New York" "USA" "" "" "" "" "" true png true false.

Definition five_themes : list string :=
  ["noir"; "neon_cyberpunk"; "terracotta"; "blueprint"; "warm_beige"].

(** The same capabilities with the map data source down. *)
Definition offline : Capabilities := {|
  geocoder := λ _ c k,
    if (String.eqb c "New York" && String.eqb k "USA")%bool
    then Some (407128 # 10000, - 740060 # 10000)%Q else None;
  font_catalog := λ _ _, None;
  map_data := λ _ _ _, None;
  presets := [terracotta];
  fallback_style := RoadStyle "#888888" (3 # 10) 0;
  coordinate_precision := 4;
  parse_float := decimal_literal;
  isspace := unicode_isspace;
  case_fold := latin_case_fold;
|}.

(** The defaults of the sidebar with "Render Map" pressed, in the world
    where the map data source is down. *)
Definition offline_new_york : @sidebar (@Engine.engine_environment offline) :=
  {| city := "New York"; country := "USA";
     override_lat := ""; override_lon := "";
     selected_theme := "terracotta";
     dist := 12000; width := (12 # 1)%Q; height := (16 # 1)%Q;
     display_city := ""; display_country := "";
     font_family := "";
     live_mode := false; output_format := png;
     clear_btn := false; generate_btn := true |}.

(** A world whose cache root exists and is empty. *)
Definition empty_cache : engine_world := MkWorld (Some empty_root) [] [] [] ∅ 0.

End Demo.

(** * Properties of the dashboard *)

Lemma pair_eta_fst {A B} (x : A * B) (a : A) : x.1 = a → x = (a, x.2).
Proof. intros <-. by destruct x. Qed.

Local Open Scope list_scope.

Section DashboardFacts.
Context `{Comp : Compositor}.

Lemma logs_ret {A} P (Q : A → Prop) a : Q a → logs P Q (mret a).
Proof.
  intros Ha s. exists []. cbn. rewrite app_nil_r.
  repeat split; [constructor|]. by intros ? [= <-].
Qed.

Lemma logs_lift {A} P (r : outcome A) : logs P (λ a, r = Returns a) (lift r).
Proof.
  intros s. exists []. cbn. rewrite app_nil_r. repeat split; [constructor|done].
Qed.

Lemma logs_emit P e : P e → logs P (λ _, True) (emit e).
Proof. intros He s. exists [e]. cbn. repeat split. by constructor. Qed.

Lemma logs_call {A} P e (f : world → outcome A * world) :
  P e → logs P (λ _, True) (call e f).
Proof.
  intros He s. exists [e]. unfold call. destruct (f (env s)). cbn.
  repeat split. by constructor.
Qed.

Lemma logs_bind {A B} P (Q : A → Prop) (R : B → Prop) (m : M A) (f : A → M B) :
  logs P Q m → (∀ a, Q a → logs P R (f a)) → logs P R (m ≫= f).
Proof.
  intros Hm Hf s. destruct (Hm s) as (ev1 & Hl1 & HP1 & HQ).
  unfold mbind, M_bind. destruct (m s) as [[a|e] s1] eqn:E; cbn in *.
  - destruct (Hf a (HQ a eq_refl) s1) as (ev2 & Hl2 & HP2 & HR).
    exists (ev1 ++ ev2). rewrite Hl2, Hl1, app_assoc. repeat split; [|done].
    by apply Forall_app.
  - exists ev1. repeat split; done.
Qed.

Lemma logs_weaken {A} (P P' : event → Prop) (Q Q' : A → Prop) m :
  logs P Q m → (∀ e, P e → P' e) → (∀ a, Q a → Q' a) → logs P' Q' m.
Proof.
  intros Hm HP HQ s. destruct (Hm s) as (evs & Hl & HF & Hr).
  exists evs. repeat split; [done| |by auto].
  eapply Forall_impl; eauto.
Qed.

Lemma logs_try_except {A} P (Q : A → Prop) body handler :
  logs P Q body → (∀ e, logs P Q (handler e)) → logs P Q (try_except body handler).
Proof.
  intros Hb Hh s. destruct (Hb s) as (ev1 & Hl1 & HP1 & HQ).
  unfold try_except. destruct (body s) as [[a|e] s1] eqn:E; cbn in *.
  - exists ev1. repeat split; [done|done|]. intros ? [= <-]. by apply HQ.
  - destruct (Hh e s1) as (ev2 & Hl2 & HP2 & HR).
    exists (ev1 ++ ev2). rewrite Hl2, Hl1, app_assoc. repeat split; [|done].
    by apply Forall_app.
Qed.

Lemma logs_cache {K V} `{Countable K} P table store (f : K → M V) k :
  (∀ m s, log (store m s) = log s) →
  logs P (λ _, True) (f k) → logs P (λ _, True) (st_cache_data table store f k).
Proof.
  intros Hst Hf s. unfold st_cache_data. destruct (table s !! k).
  - exists []. cbn. rewrite app_nil_r. repeat split. constructor.
  - destruct (Hf s) as (evs & Hl & HP & _).
    destruct (f k s) as [[v|e] s1]; cbn in *; exists evs; rewrite ?Hst; done.
Qed.

Lemma logs_get_cached_theme P n :
  (∀ n', P (Call_load_theme n')) → logs P (λ _, True) (get_cached_theme n).
Proof.
  intros HP. apply logs_cache; [done|]. by apply logs_call.
Qed.

Lemma logs_get_cached_coordinates P c k :
  P (Call_get_coordinates c k) → logs P (λ _, True) (get_cached_coordinates c k).
Proof.
  intros HP. apply logs_cache; [done|]. by apply logs_call.
Qed.

(** The events of steps 2 to 4. *)
Lemma logs_generate_poster (P : event → Prop) ui pt :
  (∀ n, P (Call_load_theme n)) →
  (∀ suffix, P (Call_NamedTemporaryFile suffix)) →
  (∀ f, P (Call_load_fonts f)) →
  (∀ th path fs, P (Call_CreatePoster (CreatePoster_args ui pt th path fs))) →
  logs P (λ _, True) (generate_poster ui pt).
Proof.
  intros Htheme Htemp Hfonts Hposter. unfold generate_poster.
  eapply logs_bind; [by apply logs_get_cached_theme|].
  intros th _. eapply logs_bind; [by apply logs_call|].
  intros path _. eapply (logs_bind _ (λ _, True)).
  - unfold load_custom_fonts. destruct (truthy (font_family ui)); [|by apply logs_ret].
    eapply logs_bind; [by apply logs_call|].
    intros; by apply logs_ret.
  - intros fs _. eapply logs_bind; [apply logs_call, Hposter|].
    intros; by apply logs_ret.
Qed.

Lemma logs_generate (P : event → Prop) ui :
  (∀ msg, P (St_error msg)) →
  logs P (λ _, True) (generate_body ui) →
  logs P (λ _, True) (generate ui).
Proof.
  intros Herr Hbody. unfold generate. apply logs_try_except.
  - eapply logs_bind; [exact Hbody|]. intros; by apply logs_ret.
  - intros e. eapply logs_bind; [apply logs_emit, Herr|]. intros; by apply logs_ret.
Qed.

(** ** What a computation leaves alone *)

Lemma keeps_ret {A B} (f : session → B) (a : A) : keeps f (mret a).
Proof. by intros s. Qed.

Lemma keeps_lift {A B} (f : session → B) (r : outcome A) : keeps f (lift r).
Proof. by intros s. Qed.

Lemma keeps_bind {A B C} (g : session → C) (m : M A) (f : A → M B) :
  keeps g m → (∀ a, keeps g (f a)) → keeps g (m ≫= f).
Proof.
  intros Hm Hf s. unfold mbind, M_bind. specialize (Hm s).
  destruct (m s) as [[a|e] s1]; cbn in *; [|done].
  by rewrite Hf.
Qed.

Lemma keeps_try_except {A C} (g : session → C) (body : M A) handler :
  keeps g body → (∀ e, keeps g (handler e)) → keeps g (try_except body handler).
Proof.
  intros Hb Hh s. unfold try_except. specialize (Hb s).
  destruct (body s) as [[a|e] s1]; cbn in *; [done|].
  by rewrite Hh.
Qed.

Lemma keeps_coords_emit e : keeps coords_memo (emit e).
Proof. by intros s. Qed.

Lemma keeps_coords_call {A} e (f : world → outcome A * world) :
  keeps coords_memo (call e f).
Proof. intros s. unfold call. by destruct (f (env s)). Qed.

Lemma keeps_coords_get_cached_theme n : keeps coords_memo (get_cached_theme n).
Proof.
  intros s. unfold get_cached_theme, st_cache_data.
  destruct (theme_memo s !! n); [done|].
  pose proof (keeps_coords_call (Call_load_theme n) (load_theme n) s) as Hc.
  by destruct (call _ _ s) as [[v|e] s1].
Qed.

Lemma keeps_coords_generate_poster ui pt : keeps coords_memo (generate_poster ui pt).
Proof.
  unfold generate_poster.
  apply keeps_bind; [apply keeps_coords_get_cached_theme|intros th].
  apply keeps_bind; [apply keeps_coords_call|intros path].
  apply keeps_bind.
  - unfold load_custom_fonts. destruct (truthy (font_family ui)); [|apply keeps_ret].
    apply keeps_bind; [apply keeps_coords_call|intros; apply keeps_ret].
  - intros fs. apply keeps_bind; [apply keeps_coords_call|intros; apply keeps_ret].
Qed.

Lemma keeps_coords_clear_cache : keeps coords_memo clear_cache.
Proof.
  intros s. unfold clear_cache. destruct (CACHE_DIR_exists (env s)).
  - revert s. change (keeps coords_memo
      (call Call_rmtree_CACHE_DIR rmtree_CACHE_DIR;;
       call Call_mkdir_CACHE_DIR mkdir_CACHE_DIR;;
       emit (St_success "Cache cleared!");; emit St_rerun;; mret Rerun)).
    repeat (apply keeps_bind; [first [apply keeps_coords_call|apply keeps_coords_emit]|intros]).
    apply keeps_ret.
  - done.
Qed.

(** ** The memo table of [get_cached_coordinates] *)

Lemma get_cached_coordinates_hit c k s p :
  coords_memo s !! (c, k) = Some p →
  get_cached_coordinates c k s = (Returns p, s).
Proof. intros Hm. unfold get_cached_coordinates, st_cache_data. by rewrite Hm. Qed.

Lemma get_cached_coordinates_stores c k s p s1 :
  get_cached_coordinates c k s = (Returns p, s1) →
  coords_memo s1 !! (c, k) = Some p.
Proof.
  unfold get_cached_coordinates, st_cache_data.
  destruct (coords_memo s !! (c, k)) eqn:Hm.
  - by intros [= <- <-].
  - destruct (call _ _ s) as [[v|e] s'] eqn:E; [|done].
    intros [= <- <-]. cbn. by rewrite lookup_insert_eq.
Qed.

Lemma get_cached_coordinates_miss c k s :
  coords_memo s !! (c, k) = None →
  ∃ r s1, get_cached_coordinates c k s = (r, s1) ∧
          log s1 = log s ++ [Call_get_coordinates c k].
Proof.
  intros Hm. unfold get_cached_coordinates, st_cache_data, call. rewrite Hm. cbn.
  destruct (get_coordinates c k (env s)) as [[v|e] w]; eauto.
Qed.

Lemma get_cached_coordinates_miss_eq c k s :
  coords_memo s !! (c, k) = None →
  get_cached_coordinates c k s =
    match get_coordinates c k (env s) with
    | (Returns p, w) =>
        (Returns p, Session (<[(c, k) := p]> (coords_memo s)) (theme_memo s) w
                            (log s ++ [Call_get_coordinates c k]))
    | (Raises e, w) =>
        (Raises e, Session (coords_memo s) (theme_memo s) w
                           (log s ++ [Call_get_coordinates c k]))
    end.
Proof.
  intros Hm. unfold get_cached_coordinates, st_cache_data, call. rewrite Hm. cbn.
  by destruct (get_coordinates c k (env s)) as [[v|e] w].
Qed.

(** ** [handle_coordinates] *)

Lemma handle_coordinates_no_override ui :
  truthy (override_lat ui) && truthy (override_lon ui) = false →
  handle_coordinates ui = get_cached_coordinates (city ui) (country ui).
Proof. intros Hb. unfold handle_coordinates. by rewrite Hb. Qed.

Lemma handle_coordinates_override ui s :
  truthy (override_lat ui) = true → truthy (override_lon ui) = true →
  handle_coordinates ui s =
    match float (override_lat ui), float (override_lon ui) with
    | Returns lat, Returns lon => (Returns (lat, lon), s)
    | Returns _, Raises e => (Raises e, s)
    | Raises e, _ => (Raises e, s)
    end.
Proof.
  intros Ha Hb. unfold handle_coordinates. rewrite Ha, Hb. cbn.
  unfold mbind, M_bind, lift.
  destruct (float (override_lat ui)); [|done].
  by destruct (float (override_lon ui)).
Qed.

(** ** [generate], by the outcome of its two parts *)

Lemma generate_unfold ui s :
  generate ui s =
    match handle_coordinates ui s with
    | (Returns pt, s1) =>
        match generate_poster ui pt s1 with
        | (Returns path, s2) => (Returns (Some path), s2)
        | (Raises e, s2) => (Returns None, shown_error e s2)
        end
    | (Raises e, s1) => (Returns None, shown_error e s1)
    end.
Proof.
  unfold generate, try_except, generate_body, mbind, M_bind.
  destruct (handle_coordinates ui s) as [[pt|e] s1]; [|done].
  by destruct (generate_poster ui pt s1) as [[path|e] s2].
Qed.

Lemma generate_poster_unfold ui pt s :
  generate_poster ui pt s =
    match get_cached_theme (selected_theme ui) s with
    | (Returns th, s1) =>
        match call (Call_NamedTemporaryFile ("." ++ lower (format_name (output_format ui))))
                   (NamedTemporaryFile ("." ++ lower (format_name (output_format ui)))) s1 with
        | (Returns path, s2) =>
            match load_custom_fonts ui s2 with
            | (Returns fs, s3) =>
                match call (Call_CreatePoster (CreatePoster_args ui pt th path fs))
                           (CreatePoster (CreatePoster_args ui pt th path fs)) s3 with
                | (Returns _, s4) => (Returns path, s4)
                | (Raises e, s4) => (Raises e, s4)
                end
            | (Raises e, s3) => (Raises e, s3)
            end
        | (Raises e, s2) => (Raises e, s2)
        end
    | (Raises e, s1) => (Raises e, s1)
    end.
Proof.
  unfold generate_poster, mbind, M_bind.
  destruct (get_cached_theme _ s) as [[th|e] s1]; [|done].
  destruct (call (Call_NamedTemporaryFile _) _ s1) as [[path|e] s2]; [|done].
  destruct (load_custom_fonts ui s2) as [[fs|e] s3]; [|done].
  by destruct (call (Call_CreatePoster _) _ s3) as [[[]|e] s4].
Qed.

Lemma generate_returns ui s path s' :
  generate ui s = (Returns (Some path), s') →
  ∃ pt s1, handle_coordinates ui s = (Returns pt, s1) ∧
           generate_poster ui pt s1 = (Returns path, s').
Proof.
  rewrite generate_unfold.
  destruct (handle_coordinates ui s) as [[pt|e] s1]; [|done].
  destruct (generate_poster ui pt s1) as [[q|e] s2] eqn:E; [|done].
  intros [= <- <-]. eauto.
Qed.

(** The path [generate] returns is the file the compositor was told to
    write, and the compositor returned. *)
Lemma generate_poster_returns ui pt s path s' :
  generate_poster ui pt s = (Returns path, s') →
  ∃ th fs w,
    CreatePoster (CreatePoster_args ui pt th path fs) w = (Returns tt, env s').
Proof.
  rewrite generate_poster_unfold.
  destruct (get_cached_theme _ s) as [[th|e] s1]; [|done].
  destruct (call (Call_NamedTemporaryFile _) _ s1) as [[q|e] s2]; [|done].
  destruct (load_custom_fonts ui s2) as [[fs|e] s3]; [|done].
  unfold call.
  destruct (CreatePoster _ (env s3)) as [[[]|e] w] eqn:E; [|done].
  intros [= <- <-]. cbn. eauto.
Qed.

(** ** What a call and a returned [generate] leave in the log *)

Lemma logs_load_custom_fonts (P : event → Prop) ui :
  (truthy (font_family ui) = true → P (Call_load_fonts (font_family ui))) →
  logs P (λ fs, is_Some fs ↔ truthy (font_family ui) = true) (load_custom_fonts ui).
Proof.
  intros HP. unfold load_custom_fonts. destruct (truthy (font_family ui)) eqn:Ht.
  - eapply logs_bind; [apply logs_call; by apply HP|].
    intros f _. apply logs_ret. split; eauto.
  - apply logs_ret. split; [by intros [? [=]]|done].
Qed.

Lemma logs_handle_coordinates (P : event → Prop) ui :
  (truthy (override_lat ui) && truthy (override_lon ui) = false →
   P (Call_get_coordinates (city ui) (country ui))) →
  logs P (λ _, True) (handle_coordinates ui).
Proof.
  intros HP. unfold handle_coordinates.
  destruct (truthy (override_lat ui) && truthy (override_lon ui)).
  - eapply logs_bind; [apply logs_lift|intros lat _].
    eapply logs_bind; [apply logs_lift|intros lon _]. by apply logs_ret.
  - apply logs_get_cached_coordinates. by apply HP.
Qed.

Lemma call_log {A} e (f : world → outcome A * world) s :
  log (call e f s).2 = log s ++ [e].
Proof. unfold call. by destruct (f (env s)). Qed.

Lemma call_returns {A} e (f : world → outcome A * world) s a s' :
  call e f s = (Returns a, s') →
  f (env s) = (Returns a, env s') ∧ log s' = log s ++ [e] ∧
  coords_memo s' = coords_memo s ∧ theme_memo s' = theme_memo s.
Proof.
  unfold call. destruct (f (env s)) as [r w]. by intros [= -> <-].
Qed.

Lemma call_raises {A} e (f : world → outcome A * world) s x s' :
  call e f s = (Raises x, s') →
  f (env s) = (Raises x, env s') ∧ log s' = log s ++ [e] ∧
  coords_memo s' = coords_memo s ∧ theme_memo s' = theme_memo s.
Proof.
  unfold call. destruct (f (env s)) as [r w]. by intros [= -> <-].
Qed.

(** A returned [generate_poster] ends with the compositor call, on the path
    that [NamedTemporaryFile] returned. *)
Lemma generate_poster_success ui pt s p s' :
  generate_poster ui pt s = (Returns p, s') →
  ∃ pre th fs w0 w1 w,
    log s' = log s ++ pre ++ [Call_CreatePoster (CreatePoster_args ui pt th p fs)] ∧
    Call_NamedTemporaryFile ("." ++ lower (format_name (output_format ui)))%string ∈ pre ∧
    NamedTemporaryFile ("." ++ lower (format_name (output_format ui)))%string w0
      = (Returns p, w1) ∧
    CreatePoster (CreatePoster_args ui pt th p fs) w = (Returns tt, env s').
Proof.
  rewrite generate_poster_unfold.
  pose proof (logs_get_cached_theme (λ _, True) (selected_theme ui) (λ _, I) s)
    as (ev1 & Hl1 & _).
  destruct (get_cached_theme _ s) as [[th|e] s1]; [|done]. cbn [snd] in Hl1.
  destruct (call (Call_NamedTemporaryFile _) _ s1) as [[q|e] s2] eqn:E2; [|done].
  apply call_returns in E2 as (Htmp & Hl2 & _).
  pose proof (logs_load_custom_fonts (λ _, True) ui (λ _, I) s2) as (ev3 & Hl3 & _).
  destruct (load_custom_fonts ui s2) as [[fs|e] s3]; [|done]. cbn [snd] in Hl3.
  destruct (call (Call_CreatePoster _) _ s3) as [[[]|e] s4] eqn:E4; [|done].
  apply call_returns in E4 as (Hcp & Hl4 & _).
  intros [= <- <-].
  exists (ev1 ++ [Call_NamedTemporaryFile ("." ++ lower (format_name (output_format ui)))%string]
            ++ ev3), th, fs, (env s1), (env s2), (env s3).
  split_and!; [|apply elem_of_app; right; apply list_elem_of_here|done|done].
  rewrite Hl4, Hl3, Hl2, Hl1. by rewrite <- !app_assoc.
Qed.

(** What a returned path says about the run of [generate]. *)
Lemma generate_success (ui : sidebar) (s s' : session) (p : string) :
  generate ui s = (Returns (Some p), s') →
  ∃ pre a w0 w1 w,
    log s' = log s ++ pre ++ [Call_CreatePoster a] ∧
    arg_output_file a = p ∧
    Call_NamedTemporaryFile ("." ++ lower (format_name (output_format ui)))%string ∈ pre ∧
    NamedTemporaryFile ("." ++ lower (format_name (output_format ui)))%string w0
      = (Returns p, w1) ∧
    CreatePoster a w = (Returns tt, env s').
Proof.
  intros (pt & s1 & Hpt & Hp)%generate_returns.
  pose proof (logs_handle_coordinates (λ _, True) ui (λ _, I) s) as (ev0 & Hl0 & _).
  rewrite Hpt in Hl0. cbn [snd] in Hl0.
  apply generate_poster_success in Hp as (pre & th & fs & w0 & w1 & w & Hl & Hin & Htmp & Hcp).
  exists (ev0 ++ pre), (CreatePoster_args ui pt th p fs), w0, w1, w.
  split_and!; [|done|apply elem_of_app; by right|done|done].
  rewrite Hl, Hl0. by rewrite <- !app_assoc.
Qed.

(** A path is returned only after the compositor was called on it, with the
    point that step 1 produced. *)
Lemma generate_reaches_the_compositor (ui : sidebar) (s : session) (p : string) evs :
  (generate ui s).1 = Returns (Some p) →
  log (generate ui s).2 = log s ++ evs →
  ∃ pt th fs,
    (handle_coordinates ui s).1 = Returns pt ∧
    Call_CreatePoster (CreatePoster_args ui pt th p fs) ∈ evs.
Proof.
  intros Hp%pair_eta_fst Hl.
  destruct (generate_returns _ _ _ _ Hp) as (pt & s1 & Hpt & Hgp).
  pose proof (logs_handle_coordinates (λ _, True) ui (λ _, I) s) as (ev0 & Hl0 & _).
  rewrite Hpt in Hl0. cbn [snd] in Hl0.
  apply generate_poster_success in Hgp as (pre & th & fs & _ & _ & _ & Hl1 & _).
  rewrite Hl1, Hl0, <- app_assoc in Hl. apply app_inv_head in Hl. subst evs.
  exists pt, th, fs. rewrite Hpt. split; [done|].
  rewrite !elem_of_app. right. right. apply list_elem_of_here.
Qed.

(** The log of [generate] starts with the log of step 1. *)
Lemma generate_log_after_coordinates (ui : sidebar) (s : session) :
  ∃ evs, log (generate ui s).2 = log (handle_coordinates ui s).2 ++ evs.
Proof.
  rewrite generate_unfold.
  destruct (handle_coordinates ui s) as [[pt|e] s1]; cbn [snd].
  - pose proof (logs_generate_poster (λ _, True) ui pt (λ _, I) (λ _, I) (λ _, I)
                  (λ _ _ _, I) s1) as (ev & Hl & _).
    destruct (generate_poster ui pt s1) as [[p|e] s2]; cbn [snd shown_error log] in *.
    + by exists ev.
    + exists (ev ++ [St_error ("Error: " ++ str e)%string]). by rewrite Hl, <- app_assoc.
  - by exists [St_error ("Error: " ++ str e)%string].
Qed.

(** ** The claims *)

(** C10. Every compositor call of a run of the script carries dpi 72 when
    live mode is on and dpi 300 otherwise. *)
Theorem dashboard_dpi_is_72_or_300 (ui : sidebar) (s : session) :
  ∃ evs, log (main ui s).2 = log s ++ evs ∧
         ∀ a, Call_CreatePoster a ∈ evs →
              arg_dpi a = if live_mode ui then 72 else 300.
Proof.
  set (P := λ e : event, ∀ a, e = Call_CreatePoster a →
                              arg_dpi a = if live_mode ui then 72 else 300).
  assert (Hother : ∀ e, (∀ a, e ≠ Call_CreatePoster a) → P e).
  { intros e He a ->. by destruct (He a). }
  assert (Hgen : logs P (λ _, True) (generate ui)).
  { apply logs_generate; [intros; by apply Hother|].
    unfold generate_body. eapply (logs_bind _ (λ _, True)).
    - unfold handle_coordinates.
      destruct (truthy (override_lat ui) && truthy (override_lon ui)).
      + eapply logs_bind; [apply logs_lift|intros lat _].
        eapply logs_bind; [apply logs_lift|intros lon _]. by apply logs_ret.
      + apply logs_get_cached_coordinates. by apply Hother.
    - intros pt _. apply logs_generate_poster; try (intros; by apply Hother).
      intros th path fs a [= <-]. done. }
  assert (Hclear : logs P (λ _, True) clear_cache).
  { intros s0. unfold clear_cache. destruct (CACHE_DIR_exists (env s0)).
    - revert s0. change (logs P (λ _, True)
        (call Call_rmtree_CACHE_DIR rmtree_CACHE_DIR;;
         call Call_mkdir_CACHE_DIR mkdir_CACHE_DIR;;
         emit (St_success "Cache cleared!");; emit St_rerun;; mret Rerun)).
      repeat (eapply (logs_bind _ (λ _, True));
              [first [apply logs_call|apply logs_emit]; by apply Hother|intros ? _]).
      by apply logs_ret.
    - revert s0. change (logs P (λ _, True)
        (emit (St_info "Cache is already empty.");; mret Finished)).
      eapply (logs_bind _ (λ _, True)); [apply logs_emit; by apply Hother|intros ? _].
      by apply logs_ret. }
  assert (Hshow : ∀ p, logs P (λ _, True) (show_result ui p)).
  { intros p. unfold show_result.
    eapply (logs_bind _ (λ _, True)).
    - destruct (String.eqb _ _).
      + eapply (logs_bind _ (λ _, True)); [apply logs_call; by apply Hother|intros ? _].
        apply logs_emit; by apply Hother.
      + apply logs_emit; by apply Hother.
    - intros ? _.
      eapply (logs_bind _ (λ _, True)); [apply logs_call; by apply Hother|intros ? _].
      eapply (logs_bind _ (λ _, True)); [apply logs_emit; by apply Hother|intros ? _].
      apply logs_call; by apply Hother. }
  assert (Hwelcome : ∀ l i, logs P (λ _, True) (welcome_columns i l)).
  { induction l as [|t l IH]; intros i; cbn [welcome_columns]; [by apply logs_ret|].
    eapply (logs_bind _ (λ _, True)); [apply logs_emit; by apply Hother|intros ? _].
    apply IH. }
  assert (Hmain : logs P (λ _ : script_end, True) (main ui)).
  { unfold main.
    eapply (logs_bind _ (λ _, True)); [apply logs_call; by apply Hother|intros themes _].
    eapply (logs_bind _ (λ _, True)).
    { destruct (clear_btn ui); [apply Hclear|by apply logs_ret]. }
    intros [] _; [|by apply logs_ret].
    destruct (generate_btn ui || live_mode ui).
    - eapply (logs_bind _ (λ _, True)); [apply Hgen|intros [p|] _; [|by apply logs_ret]].
      eapply (logs_bind _ (λ _, True)); [|intros; by apply logs_ret].
      destruct (truthy p); [apply Hshow|by apply logs_ret].
    - eapply (logs_bind _ (λ _, True)); [apply logs_emit; by apply Hother|intros ? _].
      eapply (logs_bind _ (λ _, True)); [apply Hwelcome|intros; by apply logs_ret]. }
  destruct (Hmain s) as (evs & Hl & HP & _).
  exists evs. split; [done|].
  intros a Ha. rewrite Forall_forall in HP. by apply (HP _ Ha).
Qed.

(** With both coordinate fields filled in, [generate] logs no
    [get_coordinates] call and leaves the memo table of
    [get_cached_coordinates] as it was, and a compositor call it logs has
    the point parsed from the two fields. *)
Lemma generate_with_override (ui : sidebar) (s : session) :
  truthy (override_lat ui) = true →
  truthy (override_lon ui) = true →
  ∃ evs, log (generate ui s).2 = log s ++ evs ∧
         coords_memo (generate ui s).2 = coords_memo s ∧
         (∀ c k, Call_get_coordinates c k ∉ evs) ∧
         (∀ a, Call_CreatePoster a ∈ evs →
               float (override_lat ui) = Returns (arg_point a).1 ∧
               float (override_lon ui) = Returns (arg_point a).2).
Proof.
  intros Hlat Hlon.
  set (P := λ e : event,
         (∀ c k, e ≠ Call_get_coordinates c k) ∧
         (∀ a, e = Call_CreatePoster a →
               float (override_lat ui) = Returns (arg_point a).1 ∧
               float (override_lon ui) = Returns (arg_point a).2)).
  assert (Hgen : logs P (λ _, True) (generate ui)).
  { apply logs_generate; [by split|].
    unfold generate_body, handle_coordinates. rewrite Hlat, Hlon. cbn [andb].
    eapply logs_bind.
    - eapply logs_bind; [apply logs_lift|intros lat Elat].
      eapply logs_bind; [apply logs_lift|intros lon Elon].
      apply (logs_ret _ (λ pt, float (override_lat ui) = Returns pt.1 ∧
                               float (override_lon ui) = Returns pt.2)).
      by split.
    - intros pt [Elat Elon]. apply logs_generate_poster; try by split.
      intros th path fs. split; [done|]. by intros a [= <-]. }
  assert (Hkeep : keeps coords_memo (generate ui)).
  { unfold generate. apply keeps_try_except.
    - apply keeps_bind; [|intros; apply keeps_ret].
      unfold generate_body, handle_coordinates. rewrite Hlat, Hlon. cbn [andb].
      apply keeps_bind; [|intros; apply keeps_coords_generate_poster].
      apply keeps_bind; [apply keeps_lift|intros].
      apply keeps_bind; [apply keeps_lift|intros; apply keeps_ret].
    - intros e. apply keeps_bind; [apply keeps_coords_emit|intros; apply keeps_ret]. }
  destruct (Hgen s) as (evs & Hl & HP & _). rewrite Forall_forall in HP.
  exists evs. split; [done|]. split; [apply Hkeep|]. split.
  - intros c k Hin. by destruct (proj1 (HP _ Hin) c k).
  - intros a Hin. by apply (proj2 (HP _ Hin) a).
Qed.

(** C1. With both coordinate fields filled in, [generate] makes no
    geocoding call, whatever the city and country are: no
    [get_coordinates] call is logged and the memo table of
    [get_cached_coordinates] is left as it was.  The point parsed from the
    two fields is the one that goes on: when both fields parse, [generate]
    is steps 2 to 4 run on that point from the session as it was; every
    compositor call receives that point; and a path is returned only after
    the compositor was called, on that path, with that point. *)
Theorem override_bypasses_geocoding (ui : sidebar) (s : session) :
  truthy (override_lat ui) = true →
  truthy (override_lon ui) = true →
  ∃ evs, log (generate ui s).2 = log s ++ evs ∧
         coords_memo (generate ui s).2 = coords_memo s ∧
         (∀ c k, Call_get_coordinates c k ∉ evs) ∧
         (∀ a, Call_CreatePoster a ∈ evs →
               float (override_lat ui) = Returns (arg_point a).1 ∧
               float (override_lon ui) = Returns (arg_point a).2) ∧
         (∀ p, (generate ui s).1 = Returns (Some p) →
               ∃ a, Call_CreatePoster a ∈ evs ∧ arg_output_file a = p ∧
                    float (override_lat ui) = Returns (arg_point a).1 ∧
                    float (override_lon ui) = Returns (arg_point a).2) ∧
         (∀ lat lon,
             float (override_lat ui) = Returns lat →
             float (override_lon ui) = Returns lon →
             generate ui s =
               match generate_poster ui (lat, lon) s with
               | (Returns p, s2) => (Returns (Some p), s2)
               | (Raises e, s2) => (Returns None, shown_error e s2)
               end).
Proof.
  intros Hlat Hlon.
  destruct (generate_with_override ui s Hlat Hlon) as (evs & Hl & Hmemo & Hgeo & Hpt).
  exists evs. split_and!; [done|done|done|done| |].
  - intros p Hp.
    destruct (generate_reaches_the_compositor ui s p evs Hp Hl) as (pt & th & fs & _ & Hin).
    exists (CreatePoster_args ui pt th p fs). split; [done|]. split; [done|].
    by apply Hpt.
  - intros lat lon Elat Elon.
    by rewrite generate_unfold, handle_coordinates_override, Elat, Elon.
Qed.

(** An override that [float] rejects ends [generate] at its first step. *)
Lemma generate_bad_override (ui : sidebar) (s : session) :
  truthy (override_lat ui) = true →
  truthy (override_lon ui) = true →
  (∃ e, float (override_lat ui) = Raises e) ∨ (∃ e, float (override_lon ui) = Raises e) →
  ∃ e, generate ui s = (Returns None, shown_error e s).
Proof.
  intros Hlat Hlon Hbad.
  assert (∃ e, handle_coordinates ui s = (Raises e, s)) as [e He].
  { rewrite handle_coordinates_override by done.
    destruct Hbad as [[e He]|[e He]]; rewrite He.
    - by exists e.
    - destruct (float (override_lat ui)); eauto. }
  exists e. by rewrite generate_unfold, He.
Qed.

(** C9. With both coordinate fields filled in and one of them not
    parseable by [float], [generate] shows an error and returns [None]:
    nothing else is logged (no temporary file, no compositor call) and the
    world is left as it was. *)
Theorem unparseable_override_aborts (ui : sidebar) (s : session) :
  truthy (override_lat ui) = true →
  truthy (override_lon ui) = true →
  (∃ e, float (override_lat ui) = Raises e) ∨ (∃ e, float (override_lon ui) = Raises e) →
  ∃ msg, generate ui s =
           (Returns None,
            Session (coords_memo s) (theme_memo s) (env s) (log s ++ [St_error msg])).
Proof.
  intros Hlat Hlon Hbad.
  destruct (generate_bad_override ui s Hlat Hlon Hbad) as [e He].
  by exists ("Error: " ++ str e)%string.
Qed.

(** The script then ends with nothing shown but the error: no image, no
    download button. *)
Lemma unparseable_override_shows_nothing (ui : sidebar) (s s1 : session) themes :
  truthy (override_lat ui) = true →
  truthy (override_lon ui) = true →
  (∃ e, float (override_lat ui) = Raises e) ∨ (∃ e, float (override_lon ui) = Raises e) →
  clear_btn ui = false →
  generate_btn ui = true →
  call Call_get_available_themes get_available_themes s = (Returns themes, s1) →
  ∃ msg, main ui s =
           (Returns Finished,
            Session (coords_memo s1) (theme_memo s1) (env s1) (log s1 ++ [St_error msg])).
Proof.
  intros Hlat Hlon Hbad Hc Hg E.
  destruct (generate_bad_override ui s1 Hlat Hlon Hbad) as [e Hgen].
  exists ("Error: " ++ str e)%string. unfold main. rewrite Hc, Hg. cbn [orb].
  unfold mbind, M_bind. rewrite E. cbn. by rewrite Hgen.
Qed.

(** With exactly one coordinate field filled in, [generate] does what it
    does with both left empty, and a compositor call it logs has the point
    that [get_cached_coordinates] returns for the city and country. *)
Lemma generate_with_partial_override (ui : sidebar) (s : session) :
  xorb (truthy (override_lat ui)) (truthy (override_lon ui)) = true →
  generate ui s = generate (without_override ui) s ∧
  ∃ evs, log (generate ui s).2 = log s ++ evs ∧
         ∀ a, Call_CreatePoster a ∈ evs →
              (get_cached_coordinates (city ui) (country ui) s).1 = Returns (arg_point a).
Proof.
  intros Hx.
  assert (truthy (override_lat ui) && truthy (override_lon ui) = false) as Hb.
  { by destruct (truthy (override_lat ui)), (truthy (override_lon ui)). }
  split.
  { unfold generate, generate_body.
    by rewrite (handle_coordinates_no_override ui Hb). }
  rewrite generate_unfold, (handle_coordinates_no_override ui Hb).
  pose proof (logs_get_cached_coordinates (λ e, ∀ a, e ≠ Call_CreatePoster a)
                (city ui) (country ui) (λ a, ltac:(done)) s) as (ev1 & Hl1 & HP1 & _).
  rewrite Forall_forall in HP1.
  destruct (get_cached_coordinates (city ui) (country ui) s) as [[pt|e] s1] eqn:E;
    cbn [fst snd] in *.
  - pose proof (logs_generate_poster
                  (λ e, ∀ a, e = Call_CreatePoster a → pt = arg_point a) ui pt
                  (λ _ a, ltac:(done)) (λ _ a, ltac:(done)) (λ _ a, ltac:(done))) as Hp.
    destruct (Hp (λ th path fs a, ltac:(by intros [= <-])) s1) as (ev2 & Hl2 & HP2 & _).
    rewrite Forall_forall in HP2.
    destruct (generate_poster ui pt s1) as [[path|e] s2]; cbn [fst snd shown_error log] in *.
    + exists (ev1 ++ ev2). rewrite Hl2, Hl1, app_assoc. split; [done|].
      intros a [Hin|Hin]%elem_of_app.
      * by destruct (HP1 _ Hin a).
      * by rewrite (HP2 _ Hin a).
    + exists (ev1 ++ ev2 ++ [St_error ("Error: " ++ str e)%string]).
      rewrite Hl2, Hl1, <- !app_assoc. split; [done|].
      intros a [Hin|[Hin|Hin]%elem_of_app]%elem_of_app.
      * by destruct (HP1 _ Hin a).
      * by rewrite (HP2 _ Hin a).
      * by apply list_elem_of_singleton in Hin.
  - exists (ev1 ++ [St_error ("Error: " ++ str e)%string]).
    cbn [shown_error log]. rewrite Hl1, <- app_assoc. split; [done|].
    intros a [Hin|Hin]%elem_of_app.
    + by destruct (HP1 _ Hin a).
    + by apply list_elem_of_singleton in Hin.
Qed.

(** C8. With exactly one coordinate field filled in, the field is ignored
    and the point comes from the city and country: step 1 of [generate] is
    [get_cached_coordinates] on them, so [generate] is that resolution
    followed by steps 2 to 4 on its point, and it does what it does with
    both fields left empty.  When the pair is not memoised the first thing
    logged is the [get_coordinates] call for the city and country; every
    compositor call receives the point that [get_cached_coordinates]
    returns for them; and a path is returned only after the compositor was
    called, on that path, with that point. *)
Theorem partial_override_is_ignored (ui : sidebar) (s : session) :
  xorb (truthy (override_lat ui)) (truthy (override_lon ui)) = true →
  generate ui s = generate (without_override ui) s ∧
  handle_coordinates ui = get_cached_coordinates (city ui) (country ui) ∧
  generate ui s =
    match get_cached_coordinates (city ui) (country ui) s with
    | (Returns pt, s1) =>
        match generate_poster ui pt s1 with
        | (Returns path, s2) => (Returns (Some path), s2)
        | (Raises e, s2) => (Returns None, shown_error e s2)
        end
    | (Raises e, s1) => (Returns None, shown_error e s1)
    end ∧
  ∃ evs, log (generate ui s).2 = log s ++ evs ∧
         (∀ a, Call_CreatePoster a ∈ evs →
               (get_cached_coordinates (city ui) (country ui) s).1 = Returns (arg_point a)) ∧
         (coords_memo s !! (city ui, country ui) = None →
          ∃ rest, evs = Call_get_coordinates (city ui) (country ui) :: rest) ∧
         (∀ p, (generate ui s).1 = Returns (Some p) →
               ∃ a, Call_CreatePoster a ∈ evs ∧ arg_output_file a = p ∧
                    (get_cached_coordinates (city ui) (country ui) s).1
                    = Returns (arg_point a)).
Proof.
  intros Hx.
  assert (truthy (override_lat ui) && truthy (override_lon ui) = false) as Hb.
  { by destruct (truthy (override_lat ui)), (truthy (override_lon ui)). }
  pose proof (handle_coordinates_no_override ui Hb) as Hstep.
  destruct (generate_with_partial_override ui s Hx) as (Hsame & evs & Hl & Hpt).
  split_and!; [done|done|by rewrite generate_unfold, Hstep|].
  exists evs. split_and!; [done|done| |].
  - intros Hmiss.
    destruct (get_cached_coordinates_miss _ _ _ Hmiss) as (r & s1 & E & Hl1).
    destruct (generate_log_after_coordinates ui s) as (rest & Hl2).
    rewrite Hstep, E in Hl2. cbn [snd] in Hl2.
    rewrite Hl2, Hl1, <- app_assoc in Hl. apply app_inv_head in Hl.
    exists rest. by rewrite <- Hl.
  - intros p Hp.
    destruct (generate_reaches_the_compositor ui s p evs Hp Hl) as (pt & th & fs & Hh & Hin).
    exists (CreatePoster_args ui pt th p fs). split; [done|]. split; [done|].
    by rewrite <- Hstep, Hh.
Qed.

(** C4. Once [get_cached_coordinates] has returned a point for a city and
    country, the same call returns the same point and leaves the session as
    it is: the log gains no [get_coordinates] call and the world is not
    touched. *)
Theorem resolving_twice_hits_the_memo (c k : string) (s s1 : session) (p : point) :
  get_cached_coordinates c k s = (Returns p, s1) →
  get_cached_coordinates c k s1 = (Returns p, s1).
Proof.
  intros Hfirst. apply get_cached_coordinates_hit.
  by eapply get_cached_coordinates_stores.
Qed.

(** A point memoised by [get_cached_coordinates] outlives the "Clear Cache"
    button, whatever the button does to the cache directory: the next
    resolution of the same city and country returns the memoised point and
    reaches neither [get_coordinates] nor the world. *)
Lemma clear_cache_leaves_the_memo (c k : string) (s s1 s2 : session) (p : point)
    (r : outcome script_end) :
  get_cached_coordinates c k s = (Returns p, s1) →
  clear_cache s1 = (r, s2) →
  get_cached_coordinates c k s2 = (Returns p, s2).
Proof.
  intros Hfirst Hclear. apply get_cached_coordinates_hit.
  pose proof (keeps_coords_clear_cache s1) as Hk. rewrite Hclear in Hk. cbn in Hk.
  rewrite Hk. by eapply get_cached_coordinates_stores.
Qed.

End DashboardFacts.

(** * Properties of the engine *)

(** ** Rounding *)

Lemma py_round_nearest q :
  (- (1 # 2) <= inject_Z (py_round q) - q)%Q ∧ (inject_Z (py_round q) - q <= 1 # 2)%Q.
Proof.
  unfold py_round. pose proof (Qfloor_le q) as Hlo. pose proof (Qlt_floor q) as Hhi.
  rewrite inject_Z_plus in Hhi. change (inject_Z 1) with 1%Q in Hhi.
  set (f := Qfloor q) in *.
  assert (∀ g, inject_Z (g + 1) == inject_Z g + 1)%Q as Hplus
    by (intros; by rewrite inject_Z_plus).
  destruct (q - inject_Z f ?= 1 # 2)%Q eqn:E.
  - apply Qeq_alt in E. destruct (Z.even f).
    + split; lra.
    + rewrite Hplus. split; lra.
  - apply Qlt_alt in E. split; lra.
  - apply Qgt_alt in E. rewrite Hplus. split; lra.
Qed.

Lemma py_round_integral q z : (q == inject_Z z)%Q → py_round q = z.
Proof.
  intros Hq.
  assert (Qfloor q = z) as Hf by (rewrite (Qfloor_comp _ _ Hq); apply Qfloor_Z).
  assert ((q - inject_Z z ?= 1 # 2)%Q = Lt) as Hc.
  { apply Qlt_alt. assert (q - inject_Z z == 0)%Q as -> by (rewrite Hq; ring). done. }
  unfold py_round. by rewrite Hf, Hc.
Qed.

(** The sliders move in steps of half an inch and both dpi values are even:
    the product is a whole number of pixels and nothing is rounded. *)
Lemma py_round_half_inches (n m : Z) :
  py_round ((n # 2) * inject_Z (2 * m)) = n * m.
Proof.
  apply py_round_integral. unfold Qeq, Qmult, inject_Z. cbn. lia.
Qed.

(** Ties go to the even neighbour. *)
Lemma py_round_ties :
  py_round (1 # 2) = 0 ∧ py_round (3 # 2) = 2 ∧ py_round (5 # 2) = 2 ∧
  py_round (- 1 # 2) = 0 ∧ py_round (- 3 # 2) = -2.
Proof. done. Qed.

(** ** Stripping *)

Lemma lstrip_blanks {A} (space : A → bool) b l :
  Forall (λ c, space c = true) b → lstrip space (b ++ l) = lstrip space l.
Proof. induction 1 as [|c b Hc _ IH]; [done|]. cbn. by rewrite Hc. Qed.

Lemma lstrip_all_blank {A} (space : A → bool) b :
  Forall (λ c, space c = true) b → lstrip space b = [].
Proof. intros Hb. rewrite <- (app_nil_r b). by rewrite lstrip_blanks. Qed.

Lemma lstrip_app {A} (space : A → bool) a b :
  lstrip space (a ++ b) = lstrip space a ++ b
  ∨ (Forall (λ c, space c = true) a ∧ lstrip space (a ++ b) = lstrip space b).
Proof.
  induction a as [|c a IH]; cbn.
  - right. split; [constructor|done].
  - destruct (space c) eqn:Hc; [|by left].
    destruct IH as [IH|[Ha IH]]; [by left|right].
    split; [by constructor|done].
Qed.

(** Stripping sees nothing of the blanks around a core. *)
Lemma strip_blanks {A} (space : A → bool) b1 l b2 :
  Forall (λ c, space c = true) b1 → Forall (λ c, space c = true) b2 →
  strip space (b1 ++ l ++ b2) = strip space l.
Proof.
  intros H1 H2. unfold strip. rewrite lstrip_blanks by done.
  destruct (lstrip_app space l b2) as [->|[Hl ->]].
  - rewrite rev_app_distr, lstrip_blanks; [done|by apply List.Forall_rev].
  - rewrite (lstrip_all_blank space b2), (lstrip_all_blank space l) by done. done.
Qed.

Lemma lstrip_Forall2 {A} (space : A → bool) (R : A → A → Prop) a b :
  (∀ x y, R x y → space x = space y) →
  Forall2 R a b → Forall2 R (lstrip space a) (lstrip space b).
Proof.
  intros HR. induction 1 as [|x y a b Hxy Hab IH]; cbn; [constructor|].
  rewrite <- (HR x y Hxy).
  destruct (space x); [done|by constructor].
Qed.

Lemma rev_Forall2 {A} (R : A → A → Prop) a b : Forall2 R a b → Forall2 R (rev a) (rev b).
Proof.
  induction 1; cbn; [constructor|].
  apply Forall2_app; [done|by repeat constructor].
Qed.

Lemma strip_Forall2 {A} (space : A → bool) (R : A → A → Prop) a b :
  (∀ x y, R x y → space x = space y) →
  Forall2 R a b → Forall2 R (strip space a) (strip space b).
Proof.
  intros HR H. unfold strip.
  by apply rev_Forall2, lstrip_Forall2, rev_Forall2, lstrip_Forall2.
Qed.

Section EngineFacts.
Context `{Cap : Capabilities}.
Import Engine.

Lemma same_letter_isspace a b : same_letter a b → isspace a = isspace b.
Proof. intros [->|(-> & -> & _)]; done. Qed.

Lemma same_letter_case_fold a b : same_letter a b → case_fold a = case_fold b.
Proof. intros [->|(_ & _ & ->)]; done. Qed.

Lemma case_fold_Forall2 a b :
  Forall2 same_letter a b → flat_map case_fold a = flat_map case_fold b.
Proof.
  induction 1 as [|x y a b Hxy _ IH]; cbn; [done|].
  by rewrite IH, (same_letter_case_fold x y Hxy).
Qed.

Lemma normalize_variant x y : variant x y → normalize x = normalize y.
Proof.
  intros (lx & cx & rx & ly & cy & ry & Hx & Hy & Hlx & Hrx & Hly & Hry & Hc).
  unfold normalize. rewrite Hx, Hy, !strip_blanks by done.
  by rewrite (case_fold_Forall2 _ _
                (strip_Forall2 isspace same_letter _ _ same_letter_isspace Hc)).
Qed.

Lemma geocode_key_variant c1 k1 c2 k2 :
  variant c1 c2 → variant k1 k2 → geocode_key c1 k1 = geocode_key c2 k2.
Proof.
  intros Hc Hk. unfold geocode_key.
  by rewrite (normalize_variant _ _ Hc), (normalize_variant _ _ Hk).
Qed.

(** ** The Location Resolver and its cache *)

Lemma resolve_hit c k w p :
  geocode_ns (root w) !! geocode_key c k = Some p →
  resolve c k w = (Returns p, w).
Proof. intros Hc. unfold resolve. by rewrite Hc. Qed.

Lemma resolve_returns c k w p w' :
  resolve c k w = (Returns p, w') →
  geocode_ns (root w') !! geocode_key c k = Some p ∧
  ∀ key q, geocode_ns (root w) !! key = Some q → geocode_ns (root w') !! key = Some q.
Proof.
  unfold resolve. destruct (geocode_ns (root w) !! geocode_key c k) eqn:Hc.
  - by intros [= <- <-].
  - destruct (geocoder _ c k); [|done]. intros [= <- <-]. cbn. split.
    + by rewrite lookup_insert_eq.
    + intros key q Hq. rewrite lookup_insert_ne; [done|]. by intros <-; rewrite Hc in Hq.
Qed.

Lemma resolve_calls_on_miss_only c k w r w' :
  resolve c k w = (r, w') →
  geocoding_calls w' = geocoding_calls w ∨
  (geocode_ns (root w) !! geocode_key c k = None ∧
   geocoding_calls w' = geocoding_calls w ++ [(c, k)]).
Proof.
  unfold resolve. destruct (geocode_ns (root w) !! geocode_key c k) eqn:Hc.
  - intros [= <- <-]. by left.
  - destruct (geocoder _ c k); intros [= <- <-]; by right.
Qed.

Lemma fresh_memo_backed w : memo_backed (fresh w).
Proof. intros c k p. cbn. by rewrite lookup_empty. Qed.

Lemma get_cached_coordinates_memo_backed c k s p s1 :
  memo_backed s →
  get_cached_coordinates c k s = (Returns p, s1) →
  memo_backed s1 ∧ geocode_ns (root (env s1)) !! geocode_key c k = Some p.
Proof.
  intros Hb. destruct (coords_memo s !! (c, k)) as [q|] eqn:Hm.
  - rewrite (get_cached_coordinates_hit c k s q Hm). intros [= <- <-].
    split; [done|]. by apply Hb.
  - rewrite (get_cached_coordinates_miss_eq c k s Hm). cbn [get_coordinates engine_environment].
    destruct (resolve c k (env s)) as [[q|e] w] eqn:Hr; [|done].
    intros [= <- <-]. destruct (resolve_returns _ _ _ _ _ Hr) as [Hq Hkeep].
    split; [|done]. intros c' k' p'. cbn.
    destruct (decide ((c, k) = (c', k'))) as [[= <- <-]|Hne].
    + rewrite lookup_insert_eq. by intros [= <-].
    + rewrite lookup_insert_ne by done. intros Hm'. by apply Hkeep, Hb.
Qed.

(** The memo of the dashboard is keyed on the strings as typed, so the
    second spelling misses it and goes on to the resolver; as long as every
    memoised point is backed by the geocode cache, the resolver answers it
    from the cache with the point of the first spelling. *)
Lemma variants_through_the_memo (c1 k1 c2 k2 : string) (s s1 : session) (p : Q * Q) :
  variant c1 c2 →
  variant k1 k2 →
  memo_backed s →
  get_cached_coordinates c1 k1 s = (Returns p, s1) →
  ∃ s2, get_cached_coordinates c2 k2 s1 = (Returns p, s2) ∧
        geocoding_calls (env s2) = geocoding_calls (env s1).
Proof.
  intros Hc Hk Hb Hfirst.
  pose proof (geocode_key_variant _ _ _ _ Hc Hk) as Hkey.
  destruct (get_cached_coordinates_memo_backed _ _ _ _ _ Hb Hfirst) as [Hb1 Hp].
  rewrite Hkey in Hp.
  destruct (coords_memo s1 !! (c2, k2)) as [q|] eqn:Hm.
  - exists s1. rewrite (get_cached_coordinates_hit c2 k2 s1 q Hm).
    apply Hb1 in Hm. rewrite Hp in Hm. by injection Hm as <-.
  - rewrite (get_cached_coordinates_miss_eq c2 k2 s1 Hm).
    cbn [get_coordinates engine_environment].
    rewrite (resolve_hit c2 k2 (env s1) p Hp). eauto.
Qed.

(** C3. Two queries that differ only in surrounding whitespace and letter
    case have the same geocode cache key; after the resolver has returned a
    point for the first, it returns the identical point for the second from
    the cache, and the world is as it was: nothing is sent to the geocoding
    capability. *)
Theorem variants_share_the_cache_entry (c1 k1 c2 k2 : string) (w w1 : engine_world)
    (p : Q * Q) :
  variant c1 c2 →
  variant k1 k2 →
  resolve c1 k1 w = (Returns p, w1) →
  geocode_key c1 k1 = geocode_key c2 k2 ∧
  resolve c2 k2 w1 = (Returns p, w1) ∧
  geocoding_calls (resolve c2 k2 w1).2 = geocoding_calls w1.
Proof.
  intros Hc Hk Hfirst.
  pose proof (geocode_key_variant _ _ _ _ Hc Hk) as Hkey. split; [done|].
  destruct (resolve_returns _ _ _ _ _ Hfirst) as [Hp _].
  assert (resolve c2 k2 w1 = (Returns p, w1)) as Hhit.
  { apply resolve_hit. by rewrite <- Hkey. }
  by rewrite Hhit.
Qed.

(** ** The compositor *)

Lemma create_poster_returns a w w' :
  create_poster a w = (Returns tt, w') →
  ∃ n, files w' !! arg_output_file a = Some (render (request a n)).
Proof.
  unfold create_poster. destruct (fetch _ _ w) as [[n|e] w1]; [|done].
  intros [= <-]. exists n. cbn. by rewrite lookup_insert_eq.
Qed.

Lemma generate_writes_the_render ui s path s' :
  generate ui s = (Returns (Some path), s') →
  ∃ pt th fs n,
    files (env s') !! path = Some (render (request (CreatePoster_args ui pt th path fs) n)).
Proof.
  intros (pt & s1 & _ & Hp)%generate_returns.
  apply generate_poster_returns in Hp as (th & fs & w & Hp).
  apply create_poster_returns in Hp as [n Hn]. by exists pt, th, fs, n.
Qed.

(** C7. The city label of the rendered poster is [display_city] when that
    field is not empty and the city otherwise; the country label is
    [display_country] when that field is not empty and the country
    otherwise. *)
Theorem labels_follow_display_names (ui : sidebar) (s s' : session) (path : string) :
  generate ui s = (Returns (Some path), s') →
  ∃ art, files (env s') !! path = Some art ∧
         city_label art = (if truthy (display_city ui) then display_city ui else city ui) ∧
         country_label art =
           (if truthy (display_country ui) then display_country ui else country ui).
Proof.
  intros (pt & th & fs & n & Hf)%generate_writes_the_render.
  eexists. split; [exact Hf|]. cbn.
  by destruct (truthy (display_city ui)), (truthy (display_country ui)).
Qed.

(** C6. For positive width, height and dpi, a poster rendered to a raster
    format has [round(width_in * dpi)] by [round(height_in * dpi)] pixels. *)
Theorem raster_dimension_law (a : poster_args) (w w' : engine_world) :
  (0 < arg_width a)%Q →
  (0 < arg_height a)%Q →
  0 < arg_dpi a →
  is_raster (arg_output_format a) = true →
  create_poster a w = (Returns tt, w') →
  ∃ art, files w' !! arg_output_file a = Some art ∧
         pixel_dimensions art =
           Some (py_round (arg_width a * inject_Z (arg_dpi a)),
                 py_round (arg_height a * inject_Z (arg_dpi a))).
Proof.
  intros _ _ _ Hr [n Hn]%create_poster_returns.
  eexists. split; [exact Hn|]. cbn. by rewrite Hr.
Qed.

(** ** The Font Manager *)

Lemma keeps_font_view_call {A} e (f : engine_world → outcome A * engine_world) :
  (∀ w, font_ns (root (f w).2) = font_ns (root w) ∧ font_fetches (f w).2 = font_fetches w) →
  keeps font_view (call e f).
Proof.
  intros Hf s. unfold call, font_view. destruct (Hf (env s)) as [H1 H2].
  destruct (f (env s)) as [r w]. cbn in *. by rewrite H1, H2.
Qed.

Lemma resolve_font_view c k w :
  font_ns (root (resolve c k w).2) = font_ns (root w) ∧
  font_fetches (resolve c k w).2 = font_fetches w.
Proof.
  unfold resolve. destruct (geocode_ns (root w) !! geocode_key c k); [done|].
  by destruct (geocoder _ c k).
Qed.

Lemma keeps_font_view_handle_coordinates ui : keeps font_view (handle_coordinates ui).
Proof.
  unfold handle_coordinates.
  destruct (truthy (override_lat ui) && truthy (override_lon ui)).
  - apply keeps_bind; [apply keeps_lift|intros].
    apply keeps_bind; [apply keeps_lift|intros; apply keeps_ret].
  - intros s. unfold get_cached_coordinates, st_cache_data.
    destruct (coords_memo s !! _); [done|].
    pose proof (keeps_font_view_call (Call_get_coordinates (city ui) (country ui))
                  (resolve (city ui) (country ui))
                  (resolve_font_view (city ui) (country ui)) s) as Hk.
    cbn [get_coordinates engine_environment fst snd].
    by destruct (call _ _ s) as [[v|e] s1].
Qed.

Lemma keeps_font_view_get_cached_theme n : keeps font_view (get_cached_theme n).
Proof.
  intros s. unfold get_cached_theme, st_cache_data.
  destruct (theme_memo s !! n); [done|].
  unfold call. cbn. by destruct (load_theme_by_name n).
Qed.

Lemma fetch_with_font_fetches p r x w :
  fetch p r (with_font_fetches x w) =
    ((fetch p r w).1, with_font_fetches x (fetch p r w).2).
Proof.
  unfold fetch, root, with_font_fetches, with_cache. cbn.
  destruct (network_ns (default empty_root (cache w)) !! network_key p r); [done|].
  by destruct (map_data _ p r) as [[ns es]|].
Qed.

Lemma load_custom_fonts_fallback ui s :
  truthy (font_family ui) = true →
  font_ns (root (env s)) !! font_family ui = None →
  font_catalog (length (font_fetches (env s))) (font_family ui) = None →
  load_custom_fonts ui s =
    (Returns (Some (MkFontSet (Some (font_family ui)) ThemeDefault true)),
     Session (coords_memo s) (theme_memo s)
             (with_font_fetches (font_fetches (env s) ++ [font_family ui]) (env s))
             (log s ++ [Call_load_fonts (font_family ui)])).
Proof.
  intros Ht Hc Hf. unfold load_custom_fonts. rewrite Ht.
  unfold mbind, M_bind, call. cbn. by rewrite Ht, Hc, Hf.
Qed.

(** C5. A font family whose fetch fails does not fail the render: where the
    same request without a font family renders, the request with it renders
    to the same path, and the artifact is that of the request without a font
    family with the font set marked as a fallback to the theme default. *)
Theorem font_failure_falls_back (ui : sidebar) (s s0 : session) (path : string) :
  truthy (font_family ui) = true →
  font_ns (root (env s)) !! font_family ui = None →
  font_catalog (length (font_fetches (env s))) (font_family ui) = None →
  generate (without_font ui) s = (Returns (Some path), s0) →
  ∃ s' art0,
    generate ui s = (Returns (Some path), s') ∧
    files (env s0) !! path = Some art0 ∧
    files (env s') !! path =
      Some (with_fonts (MkFontSet (Some (font_family ui)) ThemeDefault true) art0).
Proof.
  intros Ht Hc Hf. rewrite !generate_unfold.
  change (handle_coordinates (without_font ui) s) with (handle_coordinates ui s).
  pose proof (keeps_font_view_handle_coordinates ui s) as Hv1.
  destruct (handle_coordinates ui s) as [[pt|e] s1]; [|done].
  rewrite !generate_poster_unfold.
  change (selected_theme (without_font ui)) with (selected_theme ui).
  change (output_format (without_font ui)) with (output_format ui).
  pose proof (keeps_font_view_get_cached_theme (selected_theme ui) s1) as Hv2.
  destruct (get_cached_theme (selected_theme ui) s1) as [[th|e] s2]; [|done].
  set (suffix := ("." ++ lower (format_name (output_format ui)))%string).
  destruct (call (Call_NamedTemporaryFile suffix) (NamedTemporaryFile suffix) s2)
    as [[q|e] s3] eqn:Etmp; [|done].
  assert (font_view s3 = font_view s) as Hv3.
  { revert Etmp. unfold call. cbn. intros [= _ <-].
    cbn [snd] in Hv1, Hv2. by rewrite <- Hv1, <- Hv2. }
  injection Hv3 as Hns Hff.
  rewrite (load_custom_fonts_fallback ui s3) by congruence.
  change (load_custom_fonts (without_font ui) s3) with (@Returns (option FontSet) None, s3).
  unfold call. cbn [env log coords_memo theme_memo CreatePoster engine_compositor].
  unfold CreatePoster, engine_compositor, create_poster.
  rewrite fetch_with_font_fetches.
  cbn [arg_point arg_dist CreatePoster_args without_font dist].
  destruct (fetch pt (dist ui) (env s3)) as [[n|e] w]; [|done].
  intros [= <- <-]. do 2 eexists. split; [done|]. cbn.
  by rewrite !lookup_insert_eq.
Qed.

(** ** The cache root and the "Clear Cache" button *)

(** On an existing root the button removes it and recreates it empty, and asks
    for a rerun. *)
Lemma clear_cache_empties_the_root (s : session) :
  is_Some (cache (env s)) →
  (clear_cache s).1 = Returns Rerun ∧
  cache (env (clear_cache s).2) = Some empty_root.
Proof.
  intros [r Hr]. unfold clear_cache. cbn. by rewrite Hr.
Qed.

(** Without a root the button only says so: no directory is created. *)
Lemma clear_cache_without_root (s : session) :
  cache (env s) = None →
  clear_cache s =
    (Returns Finished,
     Session (coords_memo s) (theme_memo s) (env s)
             (log s ++ [St_info "Cache is already empty."])).
Proof.
  intros Hr. unfold clear_cache. cbn. rewrite Hr.
  rewrite bool_decide_eq_false_2; [done|]. by intros [? [=]].
Qed.

(** On an empty root the resolver itself has nothing to return: it asks the
    geocoding capability. *)
Lemma resolve_on_empty_root c k w :
  cache w = Some empty_root →
  geocoding_calls (resolve c k w).2 = geocoding_calls w ++ [(c, k)].
Proof.
  intros Hw. unfold resolve, root. rewrite Hw. cbn. rewrite lookup_empty.
  by destruct (geocoder _ c k).
Qed.

End EngineFacts.

(** * Worked examples *)

Ltac spaces := solve [repeat (constructor; [reflexivity|]); constructor].

Ltac same_letters :=
  solve [repeat (constructor;
                 [first [left; reflexivity
                        | right; split_and!; reflexivity]|]);
         constructor].

Section Examples.
Import Engine Demo.
#[local] Existing Instance capabilities.

Lemma override_bypasses_geocoding_witness :
  ∃ evs, log (generate overridden (fresh no_cache)).2 = log (fresh no_cache) ++ evs ∧
         coords_memo (generate overridden (fresh no_cache)).2 = coords_memo (fresh no_cache) ∧
         (∀ c k, Call_get_coordinates c k ∉ evs) ∧
         (∀ a, Call_CreatePoster a ∈ evs →
               float (override_lat overridden) = Returns (arg_point a).1 ∧
               float (override_lon overridden) = Returns (arg_point a).2) ∧
         (∀ p, (generate overridden (fresh no_cache)).1 = Returns (Some p) →
               ∃ a, Call_CreatePoster a ∈ evs ∧ arg_output_file a = p ∧
                    float (override_lat overridden) = Returns (arg_point a).1 ∧
                    float (override_lon overridden) = Returns (arg_point a).2) ∧
         (∀ lat lon,
             float (override_lat overridden) = Returns lat →
             float (override_lon overridden) = Returns lon →
             generate overridden (fresh no_cache) =
               match generate_poster overridden (lat, lon) (fresh no_cache) with
               | (Returns p, s2) => (Returns (Some p), s2)
               | (Raises e, s2) => (Returns None, shown_error e s2)
               end).
Proof.
  apply (override_bypasses_geocoding overridden (fresh no_cache)); reflexivity.
Defined.

(** The run of that witness does reach the compositor, with the point of
    the two fields, and the geocoding capability is never asked. *)
Example overridden_run :
  (generate overridden (fresh no_cache)).1 = Returns (Some "/tmp/tmp0.png") ∧
  geocoding_calls (env (generate overridden (fresh no_cache)).2) = [] ∧
  composed_points (log (generate overridden (fresh no_cache)).2) = [ny].
Proof. repeat split; vm_compute; reflexivity. Qed.

Lemma unparseable_override_aborts_witness :
  ∃ msg, generate bad_override (fresh no_cache) =
           (Returns None, Session ∅ ∅ no_cache [St_error msg]).
Proof.
  apply (unparseable_override_aborts bad_override (fresh no_cache));
    [reflexivity|reflexivity|right; eexists; vm_compute; reflexivity].
Defined.

Lemma partial_override_is_ignored_witness :
  generate half_override (fresh no_cache) =
    generate (without_override half_override) (fresh no_cache) ∧
  handle_coordinates half_override = get_cached_coordinates "New York" "USA" ∧
  generate half_override (fresh no_cache) =
    match get_cached_coordinates "New York" "USA" (fresh no_cache) with
    | (Returns pt, s1) =>
        match generate_poster half_override pt s1 with
        | (Returns path, s2) => (Returns (Some path), s2)
        | (Raises e, s2) => (Returns None, shown_error e s2)
        end
    | (Raises e, s1) => (Returns None, shown_error e s1)
    end ∧
  ∃ evs, log (generate half_override (fresh no_cache)).2 = log (fresh no_cache) ++ evs ∧
         (∀ a, Call_CreatePoster a ∈ evs →
               (get_cached_coordinates "New York" "USA" (fresh no_cache)).1
               = Returns (arg_point a)) ∧
         (coords_memo (fresh no_cache) !! ("New York", "USA") = None →
          ∃ rest, evs = Call_get_coordinates "New York" "USA" :: rest) ∧
         (∀ p, (generate half_override (fresh no_cache)).1 = Returns (Some p) →
               ∃ a, Call_CreatePoster a ∈ evs ∧ arg_output_file a = p ∧
                    (get_cached_coordinates "New York" "USA" (fresh no_cache)).1
                    = Returns (arg_point a)).
Proof.
  apply (partial_override_is_ignored half_override (fresh no_cache)). reflexivity.
Defined.

(** The run of that witness asks the resolver for the city and country,
    then reaches the compositor with the resolved point; what was typed in
    the one field is neither parsed nor used. *)
Example half_override_run :
  (generate half_override (fresh no_cache)).1 = Returns (Some "/tmp/tmp0.png") ∧
  resolver_queries (log (generate half_override (fresh no_cache)).2) = [("New York", "USA")] ∧
  composed_points (log (generate half_override (fresh no_cache)).2) = [ny].
Proof. repeat split; vm_compute; reflexivity. Qed.

Lemma resolving_twice_hits_the_memo_witness :
  get_cached_coordinates "New York" "USA"
    (get_cached_coordinates "New York" "USA" (fresh no_cache)).2
  = (Returns ny, (get_cached_coordinates "New York" "USA" (fresh no_cache)).2).
Proof.
  apply (resolving_twice_hits_the_memo "New York" "USA" (fresh no_cache)).
  apply pair_eta_fst. vm_compute. reflexivity.
Defined.

Lemma variants_share_the_cache_entry_witness :
  geocode_key "New York" "USA" = geocode_key "new york" " USA " ∧
  resolve "new york" " USA " (resolve "New York" "USA" no_cache).2
  = (Returns ny, (resolve "New York" "USA" no_cache).2) ∧
  geocoding_calls (resolve "new york" " USA " (resolve "New York" "USA" no_cache).2).2
  = geocoding_calls (resolve "New York" "USA" no_cache).2.
Proof.
  apply (variants_share_the_cache_entry "New York" "USA" "new york" " USA " no_cache).
  - exists [], ltac:(let l := eval vm_compute in (code_points "New York") in exact l), [],
           [], ltac:(let l := eval vm_compute in (code_points "new york") in exact l), [].
    split_and!; first [vm_compute; reflexivity | spaces | same_letters].
  - exists [], ltac:(let l := eval vm_compute in (code_points "USA") in exact l), [],
           [32%N], ltac:(let l := eval vm_compute in (code_points "USA") in exact l), [32%N].
    split_and!; first [vm_compute; reflexivity | spaces | same_letters].
  - apply pair_eta_fst. vm_compute. reflexivity.
Defined.

(** The first resolution of that witness asks the geocoding capability, the
    second does not. *)
Example variants_resolve_once :
  geocoding_calls (resolve "New York" "USA" no_cache).2 = [("New York", "USA")] ∧
  geocoding_calls (resolve "new york" " USA " (resolve "New York" "USA" no_cache).2).2
  = [("New York", "USA")].
Proof. split; vm_compute; reflexivity. Qed.

(** Letters outside ASCII fold too, and whitespace outside ASCII is
    stripped: a no-break space follows the second spelling. *)
Example sao_paulo_variants :
  variant "SÃO PAULO" (" são paulo" +:+ of_code_points [160%N]) ∧
  geocode_key "SÃO PAULO" "Brasil"
  = geocode_key (" são paulo" +:+ of_code_points [160%N]) "BRASIL".
Proof.
  split; [|vm_compute; reflexivity].
  exists [], ltac:(let l := eval vm_compute in (code_points "SÃO PAULO") in exact l), [],
         [32%N], ltac:(let l := eval vm_compute in (code_points "são paulo") in exact l),
         [160%N].
  split_and!; first [vm_compute; reflexivity | spaces | same_letters].
Qed.

(** In that run the script calls [get_coordinates] for both spellings, and
    the resolver asks the geocoding capability once. *)
Example variants_run :
  let s1 := (get_cached_coordinates "New York" "USA" (fresh no_cache)).2 in
  let s2 := (get_cached_coordinates "new york" " USA " s1).2 in
  resolver_queries (log s2) = [("New York", "USA"); ("new york", " USA ")] ∧
  geocoding_calls (env s2) = [("New York", "USA")].
Proof. split; vm_compute; reflexivity. Qed.

Lemma font_failure_falls_back_witness :
  ∃ s' art0,
    generate with_inter (fresh no_cache) = (Returns (Some "/tmp/tmp0.svg"), s') ∧
    files (env (generate (without_font with_inter) (fresh no_cache)).2) !! "/tmp/tmp0.svg"
      = Some art0 ∧
    files (env s') !! "/tmp/tmp0.svg" =
      Some (with_fonts (MkFontSet (Some "Inter") ThemeDefault true) art0).
Proof.
  apply (font_failure_falls_back with_inter (fresh no_cache));
    [reflexivity|vm_compute; reflexivity|reflexivity|].
  apply pair_eta_fst. vm_compute. reflexivity.
Defined.

Lemma raster_dimension_law_witness :
  ∃ art, files (create_poster small_poster no_cache).2 !! "/tmp/poster.png" = Some art ∧
         pixel_dimensions art =
           Some (py_round ((43 # 10) * inject_Z 25), py_round ((5 # 2) * inject_Z 25)).
Proof.
  apply (raster_dimension_law small_poster no_cache); [done|done|done|done|].
  apply pair_eta_fst. vm_compute. reflexivity.
Defined.

(** 4.3 in at 25 dpi is 107.5 px and 2.5 in is 62.5 px: both ties go to the
    even neighbour. *)
Example small_poster_pixels :
  pixel_dimensions <$> files (create_poster small_poster no_cache).2 !! "/tmp/poster.png"
  = Some (Some (108, 62)).
Proof. vm_compute. reflexivity. Qed.

Lemma labels_follow_display_names_witness :
  ∃ art, files (env (generate renamed (fresh no_cache)).2) !! "/tmp/tmp0.pdf" = Some art ∧
         city_label art = "NYC" ∧ country_label art = "USA".
Proof.
  apply (labels_follow_display_names renamed (fresh no_cache)).
  apply pair_eta_fst. vm_compute. reflexivity.
Defined.

(** ** The "Clear Cache" button *)

(** C2, on the failing input: render New York, press "Clear Cache", render
    New York again.  The clear leaves an empty cache root, and the street
    network is fetched again; the point is not: [get_coordinates] is not
    called for the second render and the geocoding capability has been
    asked once in all. *)
Theorem clear_cache_does_not_force_a_fresh_geocode :
  let s1 := (interaction new_york (fresh no_cache)).2 in
  let s2 := (interaction press_clear s1).2 in
  let s3 := (interaction new_york s2).2 in
  is_Some (geocode_ns (root (env s1)) !! geocode_key "New York" "USA") ∧
  cache (env s2) = Some empty_root ∧
  resolver_queries (log s2) = [("New York", "USA")] ∧
  resolver_queries (log s3) = [("New York", "USA")] ∧
  geocoding_calls (env s3) = [("New York", "USA")] ∧
  composed_points (log s3) = [ny; ny] ∧
  length (network_fetches (env s3)) = 2%nat.
Proof.
  cbv zeta. split; [exists ny; vm_compute; reflexivity|].
  repeat split; vm_compute; reflexivity.
Qed.

End Examples.

(** * More on the runs of the script *)

Section ScriptFacts.
Context `{Comp : Compositor}.

(** ** [main], by the outcome of its parts *)

Lemma main_unfold ui s :
  main ui s =
    match call Call_get_available_themes get_available_themes s with
    | (Returns themes, s1) =>
        match (if clear_btn ui then clear_cache else mret Finished) s1 with
        | (Returns Rerun, s2) => (Returns Rerun, s2)
        | (Returns Finished, s2) =>
            if generate_btn ui || live_mode ui
            then match generate ui s2 with
                 | (Returns (Some p), s3) =>
                     match (if truthy p then show_result ui p else mret tt) s3 with
                     | (Returns _, s4) => (Returns Finished, s4)
                     | (Raises e, s4) => (Raises e, s4)
                     end
                 | (Returns None, s3) => (Returns Finished, s3)
                 | (Raises e, s3) => (Raises e, s3)
                 end
            else (emit (St_info "💡 Adjust the parameters in the sidebar and click **Render Map** to start.");;
                  welcome_columns 0 (take 12 themes);;
                  mret Finished) s2
        | (Raises e, s2) => (Raises e, s2)
        end
    | (Raises e, s1) => (Raises e, s1)
    end.
Proof.
  unfold main. unfold mbind at 1. unfold M_bind at 1.
  destruct (call Call_get_available_themes get_available_themes s) as [[themes|e] s1]; [|done].
  unfold mbind at 1. unfold M_bind at 1.
  destruct ((if clear_btn ui then clear_cache else mret Finished) s1) as [[[]|e] s2]; [|done|done].
  destruct (generate_btn ui || live_mode ui).
  - unfold mbind at 1. unfold M_bind at 1.
    destruct (generate ui s2) as [[[p|]|e] s3]; [|done|done].
    unfold mbind at 1. unfold M_bind at 1.
    by destruct ((if truthy p then show_result ui p else mret tt) s3) as [[[]|e] s4].
  - done.
Qed.

(** ** Every event of a run is one of [main_event] *)

Lemma logs_generate_main_event ui :
  generate_btn ui || live_mode ui = true →
  logs (main_event ui) (λ _, True) (generate ui).
Proof.
  intros Hg. apply logs_generate; [intros; by constructor|].
  unfold generate_body. eapply (logs_bind _ (λ _, True)).
  { apply logs_handle_coordinates. intros. by constructor. }
  intros pt _. unfold generate_poster.
  eapply (logs_bind _ (λ _, True)).
  { apply logs_cache; [done|]. apply logs_call. by constructor. }
  intros th _. eapply (logs_bind _ (λ _, True)); [apply logs_call; by constructor|].
  intros path _. eapply logs_bind.
  { apply logs_load_custom_fonts. intros. by constructor. }
  intros fs Hfs. eapply (logs_bind _ (λ _, True)); [apply logs_call; by constructor|].
  intros; by apply logs_ret.
Qed.

Lemma logs_clear_cache (P : event → Prop) :
  P Call_rmtree_CACHE_DIR → P Call_mkdir_CACHE_DIR → P (St_success "Cache cleared!") →
  P St_rerun → P (St_info "Cache is already empty.") →
  logs P (λ _, True) clear_cache.
Proof.
  intros H1 H2 H3 H4 H5 s. unfold clear_cache. destruct (CACHE_DIR_exists (env s)).
  - revert s. change (logs P (λ _, True)
      (call Call_rmtree_CACHE_DIR rmtree_CACHE_DIR;;
       call Call_mkdir_CACHE_DIR mkdir_CACHE_DIR;;
       emit (St_success "Cache cleared!");; emit St_rerun;; mret Rerun)).
    repeat (eapply (logs_bind _ (λ _, True));
            [first [by apply logs_call|by apply logs_emit]|intros ? _]).
    by apply logs_ret.
  - revert s. change (logs P (λ _, True)
      (emit (St_info "Cache is already empty.");; mret Finished)).
    eapply (logs_bind _ (λ _, True)); [by apply logs_emit|intros ? _].
    by apply logs_ret.
Qed.

Lemma logs_show_result_main_event ui p :
  generate_btn ui || live_mode ui = true →
  logs (main_event ui) (λ _, True) (show_result ui p).
Proof.
  intros Hg. unfold show_result. eapply (logs_bind _ (λ _, True)).
  - destruct (String.eqb _ _) eqn:Hf.
    + assert (output_format ui = png) by by destruct (output_format ui).
      eapply (logs_bind _ (λ _, True)); [apply logs_call; by constructor|intros ? _].
      apply logs_emit; by constructor.
    + assert (output_format ui ≠ png) by (intros E; by rewrite E in Hf).
      apply logs_emit; by constructor.
  - intros ? _.
    eapply (logs_bind _ (λ _, True)); [apply logs_call; by constructor|intros ? _].
    eapply (logs_bind _ (λ _, True)); [apply logs_emit; by constructor|intros ? _].
    apply logs_call; by constructor.
Qed.

Lemma logs_welcome_columns (P : event → Prop) l :
  (∀ i t, (i < 4)%nat → P (St_markdown i (welcome_line t))) →
  ∀ i, logs P (λ _, True) (welcome_columns i l).
Proof.
  intros HP. induction l as [|t l IH]; intros i; cbn [welcome_columns]; [by apply logs_ret|].
  eapply (logs_bind _ (λ _, True)); [|intros ? _; apply IH].
  apply logs_emit, HP. apply Nat.mod_upper_bound. done.
Qed.

(** Every event of a run of the script is one of [main_event]. *)
Lemma main_logs_its_events ui : logs (main_event ui) (λ _ : script_end, True) (main ui).
Proof.
  unfold main.
  eapply (logs_bind _ (λ _, True)); [apply logs_call; by constructor|intros themes _].
  eapply (logs_bind _ (λ _, True)).
  { destruct (clear_btn ui) eqn:Hc; [|by apply logs_ret].
    apply logs_clear_cache; by constructor. }
  intros [] _; [|by apply logs_ret].
  destruct (generate_btn ui || live_mode ui) eqn:Hg.
  - eapply (logs_bind _ (λ _, True)); [by apply logs_generate_main_event|].
    intros [p|] _; [|by apply logs_ret].
    eapply (logs_bind _ (λ _, True)); [|intros; by apply logs_ret].
    destruct (truthy p); [by apply logs_show_result_main_event|by apply logs_ret].
  - eapply (logs_bind _ (λ _, True)); [apply logs_emit; by constructor|intros ? _].
    eapply (logs_bind _ (λ _, True)); [|intros; by apply logs_ret].
    apply logs_welcome_columns. intros. by constructor.
Qed.

Lemma main_events ui s :
  ∃ evs, log (main ui s).2 = log s ++ evs ∧ ∀ e, e ∈ evs → main_event ui e.
Proof.
  destruct (main_logs_its_events ui s) as (evs & Hl & HP & _).
  exists evs. split; [done|]. by apply Forall_forall.
Qed.

(** ** The outcome of [generate] *)

Lemma generate_body_shows_no_error ui :
  logs not_an_error (λ _, True) (generate_body ui).
Proof.
  unfold generate_body. eapply (logs_bind _ (λ _, True)).
  - by apply logs_handle_coordinates.
  - intros pt _. by apply logs_generate_poster.
Qed.

Lemma generate_by_body ui s :
  generate ui s =
    match generate_body ui s with
    | (Returns p, s1) => (Returns (Some p), s1)
    | (Raises e, s1) => (Returns None, shown_error e s1)
    end.
Proof.
  unfold generate, try_except, mbind, M_bind.
  by destruct (generate_body ui s) as [[p|e] s1].
Qed.

(** The two ways [generate] ends. *)
Lemma generate_outcome (ui : sidebar) (s : session) :
  ∃ evs, log (generate ui s).2 = log s ++ evs ∧
    ((∃ p, (generate ui s).1 = Returns (Some p) ∧ ∀ msg, St_error msg ∉ evs) ∨
     ((generate ui s).1 = Returns None ∧
      ∃ pre msg, evs = pre ++ [St_error msg] ∧ ∀ m, St_error m ∉ pre)).
Proof.
  destruct (generate_body_shows_no_error ui s) as (evs & Hl & HP & _).
  assert (∀ m, St_error m ∉ evs) as Hno.
  { intros m Hin. rewrite Forall_forall in HP. by apply (HP _ Hin m). }
  rewrite generate_by_body.
  destruct (generate_body ui s) as [[p|e] s1]; cbn [fst snd shown_error log] in *.
  - exists evs. split; [done|]. left. eauto.
  - exists (evs ++ [St_error ("Error: " ++ str e)%string]).
    rewrite Hl, <- app_assoc. split; [done|]. right. eauto.
Qed.

(** [generate] never raises: it returns a path, having shown no error, or it
    returns [None], and then the error message is the last thing it logged and
    the only one. *)
Theorem generate_returns_or_reports (ui : sidebar) (s : session) :
  ∃ evs, log (generate ui s).2 = log s ++ evs ∧
    ((∃ p, (generate ui s).1 = Returns (Some p) ∧ ∀ msg, St_error msg ∉ evs) ∨
     ((generate ui s).1 = Returns None ∧
      ∃ pre msg, evs = pre ++ [St_error msg] ∧ ∀ m, St_error m ∉ pre)).
Proof. apply generate_outcome. Qed.

(** The path [generate] returns is the one [NamedTemporaryFile] returned, and
    the last thing [generate] did was the compositor call on that path, which
    returned. *)
Theorem generate_returns_the_rendered_file (ui : sidebar) (s s' : session) (p : string) :
  generate ui s = (Returns (Some p), s') →
  ∃ pre a w0 w1 w,
    log s' = log s ++ pre ++ [Call_CreatePoster a] ∧
    arg_output_file a = p ∧
    Call_NamedTemporaryFile ("." ++ lower (format_name (output_format ui)))%string ∈ pre ∧
    NamedTemporaryFile ("." ++ lower (format_name (output_format ui)))%string w0
      = (Returns p, w1) ∧
    CreatePoster a w = (Returns tt, env s').
Proof. apply generate_success. Qed.

(** ** Failures along [generate] *)

(** A failed geocoding ends [generate] there: the theme is not loaded, no
    temporary file is made, the compositor is not called; the error is shown
    and [None] returned. *)
Theorem failed_geocoding_stops_generate (ui : sidebar) (s : session)
    (e : py_exception) (w : world) :
  truthy (override_lat ui) && truthy (override_lon ui) = false →
  coords_memo s !! (city ui, country ui) = None →
  get_coordinates (city ui) (country ui) (env s) = (Raises e, w) →
  generate ui s =
    (Returns None,
     Session (coords_memo s) (theme_memo s) w
             (log s ++ [Call_get_coordinates (city ui) (country ui);
                        St_error ("Error: " ++ str e)%string])).
Proof.
  intros Hov Hm Hg.
  rewrite generate_unfold, (handle_coordinates_no_override ui Hov).
  rewrite (get_cached_coordinates_miss_eq _ _ _ Hm), Hg.
  unfold shown_error. cbn. by rewrite <- app_assoc.
Qed.

Lemma get_cached_theme_miss_eq n s :
  theme_memo s !! n = None →
  get_cached_theme n s =
    match load_theme n (env s) with
    | (Returns th, w) =>
        (Returns th, Session (coords_memo s) (<[n := th]> (theme_memo s)) w
                             (log s ++ [Call_load_theme n]))
    | (Raises e, w) =>
        (Raises e, Session (coords_memo s) (theme_memo s) w (log s ++ [Call_load_theme n]))
    end.
Proof.
  intros Hm. unfold get_cached_theme, st_cache_data, call. rewrite Hm. cbn.
  by destruct (load_theme n (env s)) as [[v|e] w].
Qed.

(** A failed theme load ends [generate] before the temporary file is made. *)
Theorem failed_theme_makes_no_temp_file (ui : sidebar) (s s1 : session) (pt : point)
    (e : py_exception) (w : world) :
  handle_coordinates ui s = (Returns pt, s1) →
  theme_memo s1 !! selected_theme ui = None →
  load_theme (selected_theme ui) (env s1) = (Raises e, w) →
  generate ui s =
    (Returns None,
     Session (coords_memo s1) (theme_memo s1) w
             (log s1 ++ [Call_load_theme (selected_theme ui);
                         St_error ("Error: " ++ str e)%string])).
Proof.
  intros Hpt Hm Hth.
  rewrite generate_unfold, Hpt, generate_poster_unfold.
  rewrite (get_cached_theme_miss_eq _ _ Hm), Hth.
  unfold shown_error. cbn. by rewrite <- app_assoc.
Qed.

(** ** What [st.cache_data] keeps *)

(** A resolution that raised is not memoised: the table is as it was, and the
    same call goes to [get_coordinates] again. *)
Theorem failed_resolution_is_retried (c k : string) (s s1 : session) (e : py_exception) :
  get_cached_coordinates c k s = (Raises e, s1) →
  coords_memo s1 = coords_memo s ∧
  coords_memo s1 !! (c, k) = None ∧
  log s1 = log s ++ [Call_get_coordinates c k] ∧
  ∃ r s2, get_cached_coordinates c k s1 = (r, s2) ∧
          log s2 = log s1 ++ [Call_get_coordinates c k].
Proof.
  intros Hr. destruct (coords_memo s !! (c, k)) as [p|] eqn:Hm.
  { by rewrite (get_cached_coordinates_hit _ _ _ _ Hm) in Hr. }
  rewrite (get_cached_coordinates_miss_eq _ _ _ Hm) in Hr.
  destruct (get_coordinates c k (env s)) as [[p|x] w]; [done|].
  injection Hr as <- <-. cbn. split_and!; [done..|].
  by apply get_cached_coordinates_miss.
Qed.

(** Resolving one pair tells the table nothing about another pair. *)
Lemma resolution_leaves_other_pairs (c k c' k' : string) (s : session) :
  (c', k') ≠ (c, k) →
  coords_memo (get_cached_coordinates c k s).2 !! (c', k') = coords_memo s !! (c', k').
Proof.
  intros Hne. destruct (coords_memo s !! (c, k)) as [p|] eqn:Hm.
  { by rewrite (get_cached_coordinates_hit _ _ _ _ Hm). }
  rewrite (get_cached_coordinates_miss_eq _ _ _ Hm).
  destruct (get_coordinates c k (env s)) as [[p|x] w]; cbn; [|done].
  by rewrite lookup_insert_ne.
Qed.

(** ** The memo tables only grow *)

Lemma memo_grows_refl s : memo_grows s s.
Proof. by split. Qed.

Lemma memo_grows_trans s1 s2 s3 : memo_grows s1 s2 → memo_grows s2 s3 → memo_grows s1 s3.
Proof. intros [H1 H2] [H3 H4]. split; by etrans. Qed.

Lemma only_grows_ret {A} (a : A) : only_grows (mret a).
Proof. intros s. apply memo_grows_refl. Qed.

Lemma only_grows_lift {A} (r : outcome A) : only_grows (lift r).
Proof. intros s. apply memo_grows_refl. Qed.

Lemma only_grows_emit e : only_grows (emit e).
Proof. intros s. by split. Qed.

Lemma only_grows_call {A} e (f : world → outcome A * world) : only_grows (call e f).
Proof. intros s. unfold call. destruct (f (env s)). by split. Qed.

Lemma only_grows_bind {A B} (m : M A) (f : A → M B) :
  only_grows m → (∀ a, only_grows (f a)) → only_grows (m ≫= f).
Proof.
  intros Hm Hf s. unfold mbind, M_bind. specialize (Hm s).
  destruct (m s) as [[a|e] s1]; cbn in *; [|done].
  eapply memo_grows_trans; [exact Hm|apply Hf].
Qed.

Lemma only_grows_try_except {A} (body : M A) handler :
  only_grows body → (∀ e, only_grows (handler e)) → only_grows (try_except body handler).
Proof.
  intros Hb Hh s. unfold try_except. specialize (Hb s).
  destruct (body s) as [[a|e] s1]; cbn in *; [done|].
  eapply memo_grows_trans; [exact Hb|apply Hh].
Qed.

Lemma only_grows_get_cached_coordinates c k : only_grows (get_cached_coordinates c k).
Proof.
  intros s. destruct (coords_memo s !! (c, k)) as [p|] eqn:Hm.
  { rewrite (get_cached_coordinates_hit _ _ _ _ Hm). apply memo_grows_refl. }
  rewrite (get_cached_coordinates_miss_eq _ _ _ Hm).
  destruct (get_coordinates c k (env s)) as [[p|x] w]; cbn; split; cbn; try done.
  by apply insert_subseteq.
Qed.

Lemma only_grows_get_cached_theme n : only_grows (get_cached_theme n).
Proof.
  intros s. destruct (theme_memo s !! n) as [th|] eqn:Hm.
  { unfold get_cached_theme, st_cache_data. rewrite Hm. apply memo_grows_refl. }
  rewrite (get_cached_theme_miss_eq _ _ Hm).
  destruct (load_theme n (env s)) as [[p|x] w]; cbn; split; cbn; try done.
  by apply insert_subseteq.
Qed.

Lemma only_grows_generate ui : only_grows (generate ui).
Proof.
  unfold generate. apply only_grows_try_except.
  - apply only_grows_bind; [|intros; apply only_grows_ret].
    unfold generate_body. apply only_grows_bind.
    + unfold handle_coordinates.
      destruct (truthy (override_lat ui) && truthy (override_lon ui)).
      * apply only_grows_bind; [apply only_grows_lift|intros].
        apply only_grows_bind; [apply only_grows_lift|intros; apply only_grows_ret].
      * apply only_grows_get_cached_coordinates.
    + intros pt. unfold generate_poster.
      apply only_grows_bind; [apply only_grows_get_cached_theme|intros th].
      apply only_grows_bind; [apply only_grows_call|intros path].
      apply only_grows_bind.
      * unfold load_custom_fonts. destruct (truthy (font_family ui)); [|apply only_grows_ret].
        apply only_grows_bind; [apply only_grows_call|intros; apply only_grows_ret].
      * intros fs. apply only_grows_bind; [apply only_grows_call|intros; apply only_grows_ret].
  - intros e. apply only_grows_bind; [apply only_grows_emit|intros; apply only_grows_ret].
Qed.

Lemma only_grows_clear_cache : only_grows clear_cache.
Proof.
  intros s. pose proof (keeps_coords_clear_cache s) as Hc.
  assert (theme_memo (clear_cache s).2 = theme_memo s) as Ht.
  { unfold clear_cache. destruct (CACHE_DIR_exists (env s)); [|done].
    unfold mbind, M_bind, call, emit.
    destruct (rmtree_CACHE_DIR (env s)) as [[[]|e] w]; [|done]. cbn.
    by destruct (mkdir_CACHE_DIR w) as [[[]|e'] w']. }
  split; [by rewrite Hc|by rewrite Ht].
Qed.

Lemma only_grows_show_result ui p : only_grows (show_result ui p).
Proof.
  unfold show_result. apply only_grows_bind.
  - destruct (String.eqb _ _); [|apply only_grows_emit].
    apply only_grows_bind; [apply only_grows_call|intros; apply only_grows_emit].
  - intros _. apply only_grows_bind; [apply only_grows_call|intros].
    apply only_grows_bind; [apply only_grows_emit|intros; apply only_grows_call].
Qed.

Lemma only_grows_welcome_columns l : ∀ i, only_grows (welcome_columns i l).
Proof.
  induction l as [|t l IH]; intros i; cbn [welcome_columns]; [apply only_grows_ret|].
  apply only_grows_bind; [apply only_grows_emit|intros; apply IH].
Qed.

(** [main] only grows the memo tables. *)
Lemma only_grows_main (ui : sidebar) (s : session) :
  coords_memo s ⊆ coords_memo (main ui s).2 ∧ theme_memo s ⊆ theme_memo (main ui s).2.
Proof.
  revert s. change (only_grows (main ui)). unfold main.
  apply only_grows_bind; [apply only_grows_call|intros themes].
  apply only_grows_bind.
  { destruct (clear_btn ui); [apply only_grows_clear_cache|apply only_grows_ret]. }
  intros []; [|apply only_grows_ret].
  destruct (generate_btn ui || live_mode ui).
  - apply only_grows_bind; [apply only_grows_generate|].
    intros [p|]; [|apply only_grows_ret].
    apply only_grows_bind; [|intros; apply only_grows_ret].
    destruct (truthy p); [apply only_grows_show_result|apply only_grows_ret].
  - apply only_grows_bind; [apply only_grows_emit|intros].
    apply only_grows_bind; [apply only_grows_welcome_columns|intros; apply only_grows_ret].
Qed.

(** A run of the script never drops or changes a memoised point or theme,
    whatever buttons are pressed. *)
Theorem main_only_grows_the_memo (ui : sidebar) (s : session) :
  coords_memo s ⊆ coords_memo (main ui s).2 ∧ theme_memo s ⊆ theme_memo (main ui s).2.
Proof. apply only_grows_main. Qed.

Lemma after_runs_grows uis : ∀ s, memo_grows s (after_runs uis s).
Proof.
  induction uis as [|ui uis IH]; intros s; cbn; [apply memo_grows_refl|].
  eapply memo_grows_trans; [|apply IH]. apply only_grows_main.
Qed.

(** Once a city and country have been resolved, no later run of the script
    resolves them again: after any runs, with any widgets and buttons, the
    same call returns the memoised point and reaches neither
    [get_coordinates] nor the world. *)
Theorem memoised_point_outlives_every_run (c k : string) (s s1 : session) (p : point)
    (uis : list sidebar) :
  get_cached_coordinates c k s = (Returns p, s1) →
  get_cached_coordinates c k (after_runs uis s1)
  = (Returns p, after_runs uis s1).
Proof.
  intros Hfirst. apply get_cached_coordinates_hit.
  destruct (after_runs_grows uis s1) as [Hc _].
  eapply lookup_weaken; [|exact Hc]. by eapply get_cached_coordinates_stores.
Qed.

(** The same for themes: a theme that has been loaded is never loaded
    again. *)
Theorem memoised_theme_outlives_every_run (n : string) (s s1 : session) (th : theme)
    (uis : list sidebar) :
  get_cached_theme n s = (Returns th, s1) →
  get_cached_theme n (after_runs uis s1) = (Returns th, after_runs uis s1).
Proof.
  intros Hfirst.
  assert (theme_memo s1 !! n = Some th) as Hs.
  { revert Hfirst. destruct (theme_memo s !! n) as [t|] eqn:Hm.
    - unfold get_cached_theme, st_cache_data. rewrite Hm. by intros [= <- <-].
    - rewrite (get_cached_theme_miss_eq _ _ Hm).
      destruct (load_theme n (env s)) as [[t|x] w]; [|done].
      intros [= <- <-]. cbn. by rewrite lookup_insert_eq. }
  destruct (after_runs_grows uis s1) as [_ Ht].
  unfold get_cached_theme, st_cache_data.
  by rewrite (lookup_weaken _ _ _ _ Hs Ht).
Qed.

(** ** The "Clear Cache" button and the rerun *)

Lemma clear_cache_rerun s s' :
  clear_cache s = (Returns Rerun, s') →
  log s' = log s ++ [Call_rmtree_CACHE_DIR; Call_mkdir_CACHE_DIR;
                     St_success "Cache cleared!"; St_rerun] ∧
  CACHE_DIR_exists (env s) = true.
Proof.
  unfold clear_cache. destruct (CACHE_DIR_exists (env s)); [|done].
  unfold mbind, M_bind, call, emit.
  destruct (rmtree_CACHE_DIR (env s)) as [[[]|e] w]; [|done]. cbn.
  destruct (mkdir_CACHE_DIR w) as [[[]|e'] w']; [|done]. cbn.
  intros [= <-]. cbn. by rewrite <- !app_assoc.
Qed.

(** The only run that ends in a rerun. *)
Lemma main_rerun (ui : sidebar) (s s' : session) :
  main ui s = (Returns Rerun, s') →
  clear_btn ui = true ∧
  log s' = log s ++ [Call_get_available_themes; Call_rmtree_CACHE_DIR;
                     Call_mkdir_CACHE_DIR; St_success "Cache cleared!"; St_rerun] ∧
  coords_memo s' = coords_memo s ∧ theme_memo s' = theme_memo s.
Proof.
  rewrite main_unfold.
  destruct (call Call_get_available_themes get_available_themes s) as [[themes|e] s1] eqn:E1;
    [|done].
  apply call_returns in E1 as (_ & Hl1 & Hc1 & Ht1).
  destruct (clear_btn ui) eqn:Hclear.
  - destruct (clear_cache s1) as [[[]|e] s2] eqn:E2; [| |done].
    + destruct (generate_btn ui || live_mode ui).
      * destruct (generate ui s2) as [[[p|]|e] s3]; [|done|done].
        by destruct ((if truthy p then show_result ui p else mret tt) s3) as [[[]|e] s4].
      * unfold mbind, M_bind.
        destruct (emit _ s2) as [[[]|e] s3]; [|done].
        by destruct (welcome_columns 0 (take 12 themes) s3) as [[[]|e] s4].
    + intros [= <-]. apply clear_cache_rerun in E2 as Hl2. destruct Hl2 as [Hl2 _].
      pose proof (keeps_coords_clear_cache s1) as Hk.
      pose proof (only_grows_clear_cache s1) as [_ Hg].
      rewrite E2 in Hk, Hg. cbn in Hk, Hg.
      split_and!; [done|by rewrite Hl2, Hl1, <- app_assoc|congruence|].
      rewrite <- Ht1. revert E2. unfold clear_cache.
      destruct (CACHE_DIR_exists (env s1)); [|done].
      unfold mbind, M_bind, call, emit.
      destruct (rmtree_CACHE_DIR (env s1)) as [[[]|e] w]; [|done]. cbn.
      destruct (mkdir_CACHE_DIR w) as [[[]|e'] w']; [|done]. cbn. by intros [= <-].
  - cbn. destruct (generate_btn ui || live_mode ui).
    + destruct (generate ui s1) as [[[p|]|e] s3]; [|done|done].
      by destruct ((if truthy p then show_result ui p else mret tt) s3) as [[[]|e] s4].
    + unfold mbind, M_bind.
      destruct (emit _ s1) as [[[]|e] s3]; [|done].
      by destruct (welcome_columns 0 (take 12 themes) s3) as [[[]|e] s4].
Qed.

(** A run asks for a rerun only when "Clear Cache" was pressed and the cache
    directory existed; such a run does nothing but list the themes and clear:
    it does not render, not even in live mode. *)
Theorem rerun_only_after_clearing (ui : sidebar) (s s' : session) :
  main ui s = (Returns Rerun, s') →
  clear_btn ui = true ∧
  log s' = log s ++ [Call_get_available_themes; Call_rmtree_CACHE_DIR;
                     Call_mkdir_CACHE_DIR; St_success "Cache cleared!"; St_rerun] ∧
  coords_memo s' = coords_memo s ∧ theme_memo s' = theme_memo s.
Proof. apply main_rerun. Qed.

(** The rerun that follows does not ask for another: an interaction ends. *)
Lemma interaction_never_ends_in_rerun (ui : sidebar) (s s' : session) (r : script_end) :
  interaction ui s = (Returns r, s') → r = Finished.
Proof.
  unfold interaction, mbind, M_bind.
  destruct (main ui s) as [[[]|e] s1]; [by intros [= <-]| |done].
  destruct r; [done|]. by intros [Hc _]%main_rerun.
Qed.

(** ** The welcome screen *)

Lemma welcome_columns_log l : ∀ i s,
  welcome_columns i l s =
    (Returns tt,
     Session (coords_memo s) (theme_memo s) (env s)
             (log s ++ imap (λ j t, St_markdown ((i + j) mod 4) (welcome_line t)) l)).
Proof.
  induction l as [|t l IH]; intros i s; cbn [welcome_columns imap].
  - rewrite app_nil_r. by destruct s.
  - unfold mbind, M_bind, emit. rewrite IH. cbn. rewrite <- app_assoc. cbn.
    rewrite Nat.add_0_r. do 4 f_equal.
    apply imap_ext. intros j x _. cbn. by rewrite Nat.add_succ_r.
Qed.

(** With no button pressed and live mode off, a run lists the themes and
    shows the welcome screen, the first twelve themes with theme [j] in column
    [j mod 4], and does nothing else: no geocoding, no theme load, no
    temporary file, no compositor call, and the memo tables stay as they
    were. *)
Theorem idle_run_shows_the_welcome_screen (ui : sidebar) (s : session)
    (themes : list string) (w : world) :
  clear_btn ui = false →
  generate_btn ui = false →
  live_mode ui = false →
  get_available_themes (env s) = (Returns themes, w) →
  main ui s =
    (Returns Finished,
     Session (coords_memo s) (theme_memo s) w
       (log s ++
        Call_get_available_themes
        :: St_info "💡 Adjust the parameters in the sidebar and click **Render Map** to start."
        :: imap (λ j t, St_markdown (j mod 4) (welcome_line t)) (take 12 themes))).
Proof.
  intros Hc Hg Hl Hth. rewrite main_unfold, Hc, Hg, Hl. unfold call at 1. rewrite Hth.
  cbn. unfold mbind, M_bind, emit. rewrite welcome_columns_log. cbn.
  by rewrite <- !app_assoc.
Qed.

(** ** What the compositor and the font loader are called with *)

(** Whatever the run, the compositor gets the city, country, radius, size and
    format of the widgets, also when the point is an override; a display name
    is passed only when it is not empty, and fonts exactly when a font family
    was typed. *)
Theorem compositor_gets_the_widgets (ui : sidebar) (s : session) :
  ∃ evs, log (main ui s).2 = log s ++ evs ∧
    ∀ a, Call_CreatePoster a ∈ evs →
      arg_city a = city ui ∧ arg_country a = country ui ∧ arg_dist a = dist ui ∧
      arg_width a = width ui ∧ arg_height a = height ui ∧
      arg_output_format a = output_format ui ∧
      arg_display_city a ≠ Some ""%string ∧ arg_display_country a ≠ Some ""%string ∧
      (arg_display_city a = None ↔ display_city ui = ""%string) ∧
      (arg_display_country a = None ↔ display_country ui = ""%string) ∧
      (arg_fonts a = None ↔ font_family ui = ""%string).
Proof.
  destruct (main_events ui s) as (evs & Hl & Hev). exists evs. split; [done|].
  intros a Ha. apply Hev in Ha. inversion Ha as [| | | | | | | | | |pt th path fs Hg Hfs| | | | | | | | |].
  subst. cbn. split_and!; try done.
  - by destruct (display_city ui).
  - by destruct (display_country ui).
  - by destruct (display_city ui).
  - by destruct (display_country ui).
  - destruct (font_family ui); cbn in Hfs.
    + split; [done|]. intros _. destruct fs as [f|]; [|done].
      assert (is_Some (Some f)) as Hs by eauto. by apply Hfs in Hs.
    + split; [|done]. intros ->. by destruct (proj2 Hfs eq_refl) as [? [=]].
Qed.

(** [load_fonts] is called with the font family of the widgets and never with
    an empty one. *)
Theorem load_fonts_gets_a_family (ui : sidebar) (s : session) :
  ∃ evs, log (main ui s).2 = log s ++ evs ∧
    ∀ f, Call_load_fonts f ∈ evs → f = font_family ui ∧ f ≠ ""%string.
Proof.
  destruct (main_events ui s) as (evs & Hl & Hev). exists evs. split; [done|].
  intros f Hf. apply Hev in Hf. inversion Hf as [| | | | | | | | |Hg Ht| | | | | | | | | |].
  split; [done|]. intros E. by rewrite E in Ht.
Qed.

(** The preview is for png only: for pdf and svg the file is never opened as
    an image and no image is shown. *)
Theorem preview_only_for_png (ui : sidebar) (s : session) :
  ∃ evs, log (main ui s).2 = log s ++ evs ∧
    ∀ path, (Call_Image_open path ∈ evs ∨ St_image path ∈ evs) → output_format ui = png.
Proof.
  destruct (main_events ui s) as (evs & Hl & Hev). exists evs. split; [done|].
  intros path [Hin|Hin]; apply Hev in Hin; by inversion Hin.
Qed.

(** ** Showing and removing the file *)

Lemma show_result_events ui p s :
  ∃ evs, log (show_result ui p s).2 = log s ++ evs ∧
         Forall (shows_file p) evs ∧
         (∀ q, Call_os_remove q ∈ evs → ∃ l f m, St_download_button l p f m ∈ evs).
Proof.
  unfold show_result, mbind, M_bind, call, emit.
  destruct (String.eqb _ _); cbn.
  - destruct (Image_open p (env s)) as [[[]|e] w1]; cbn.
    + destruct (open_rb p w1) as [[[]|e] w2]; cbn.
      * eexists. rewrite <- !app_assoc. cbn. split; [done|].
        split; [by repeat constructor|]. intros q _. do 3 eexists. repeat first [apply list_elem_of_here|apply list_elem_of_further].
      * eexists. rewrite <- !app_assoc. cbn. split; [done|].
        split; [by repeat constructor|]. intros q Hq. by decompose_list_elem_of.
    + eexists. split; [done|]. split; [by repeat constructor|]. intros q Hq. by decompose_list_elem_of.
  - destruct (open_rb p (env s)) as [[[]|e] w2]; cbn.
    + eexists. rewrite <- !app_assoc. cbn. split; [done|].
      split; [by repeat constructor|]. intros q _. do 3 eexists. repeat first [apply list_elem_of_here|apply list_elem_of_further].
    + eexists. rewrite <- !app_assoc. cbn. split; [done|].
      split; [by repeat constructor|]. intros q Hq. by decompose_list_elem_of.
Qed.

Lemma logs_show_result_kind (kind : event → bool) ui p :
  (∀ e, is_temp_file_call e = false → is_poster_call e = false → kind e = false) →
  logs (λ e, kind e = false) (λ _, True) (show_result ui p).
Proof.
  intros Hz. unfold show_result. eapply (logs_bind _ (λ _, True)).
  - destruct (String.eqb _ _).
    + eapply (logs_bind _ (λ _, True)); [apply logs_call; by apply Hz|intros ? _].
      apply logs_emit; by apply Hz.
    + apply logs_emit; by apply Hz.
  - intros ? _.
    eapply (logs_bind _ (λ _, True)); [apply logs_call; by apply Hz|intros ? _].
    eapply (logs_bind _ (λ _, True)); [apply logs_emit; by apply Hz|intros ? _].
    apply logs_call; by apply Hz.
Qed.

Lemma logs_generate_no_result ui :
  logs (λ e, is_result_event e = false) (λ _, True) (generate ui).
Proof.
  apply logs_generate; [done|]. unfold generate_body.
  eapply (logs_bind _ (λ _, True)); [by apply logs_handle_coordinates|].
  intros pt _. by apply logs_generate_poster.
Qed.

Lemma logs_before_generate (P : event → Prop) ui :
  P Call_get_available_themes → P Call_rmtree_CACHE_DIR → P Call_mkdir_CACHE_DIR →
  P (St_success "Cache cleared!") → P St_rerun → P (St_info "Cache is already empty.") →
  logs P (λ _, True)
    (call Call_get_available_themes get_available_themes ≫= λ themes,
     (if clear_btn ui then clear_cache else mret Finished) ≫= λ cleared,
     mret (themes, cleared)).
Proof.
  intros. eapply (logs_bind _ (λ _, True)); [by apply logs_call|intros themes _].
  eapply (logs_bind _ (λ _, True)); [|intros; by apply logs_ret].
  destruct (clear_btn ui); [by apply logs_clear_cache|by apply logs_ret].
Qed.

(** The events of a run, seen from the file: either nothing of steps 5 and 6
    and of the cleanup happened, or the compositor wrote a file, no error was
    shown, and those steps are all about that file. *)
Lemma main_shape ui s :
  ∃ evs, log (main ui s).2 = log s ++ evs ∧
    (Forall (λ e, is_result_event e = false) evs ∨
     ∃ pre a post,
       evs = pre ++ Call_CreatePoster a :: post ∧
       Forall (λ e, is_result_event e = false ∧ not_an_error e) pre ∧
       Forall (shows_file (arg_output_file a)) post ∧
       (∀ q, Call_os_remove q ∈ post →
             ∃ l f m, St_download_button l (arg_output_file a) f m ∈ post)).
Proof.
  rewrite main_unfold.
  pose proof (logs_call (λ e, is_result_event e = false ∧ not_an_error e)
                Call_get_available_themes get_available_themes
                ltac:(by split) s) as (ev1 & Hl1 & HP1 & _).
  destruct (call Call_get_available_themes get_available_themes s) as [[themes|e] s1];
    cbn [snd] in *; [|exists ev1; split; [done|left]; eapply Forall_impl; [done|by intros ? []]].
  assert (logs (λ e, is_result_event e = false ∧ not_an_error e) (λ _, True)
            (if clear_btn ui then clear_cache else mret Finished)) as Hclear.
  { destruct (clear_btn ui); [apply logs_clear_cache; by split|by apply logs_ret]. }
  destruct (Hclear s1) as (ev2 & Hl2 & HP2 & _). clear Hclear.
  assert (Forall (λ e, is_result_event e = false ∧ not_an_error e) (ev1 ++ ev2)) as HP12
    by by apply Forall_app.
  assert (Forall (λ e, is_result_event e = false) (ev1 ++ ev2)) as HQ12
    by (eapply Forall_impl; [done|by intros ? []]).
  destruct ((if clear_btn ui then clear_cache else mret Finished) s1) as [[[]|e] s2];
    cbn [snd] in *;
    [|exists (ev1 ++ ev2); rewrite Hl2, Hl1, app_assoc; by split; [|left]..].
  destruct (generate_btn ui || live_mode ui).
  - pose proof (logs_generate_no_result ui s2) as (ev3 & Hl3 & HP3 & _).
    destruct (generate ui s2) as [[[p|]|e] s3] eqn:Eg; cbn [snd] in *;
      [|exists ((ev1 ++ ev2) ++ ev3); rewrite Hl3, Hl2, Hl1, !app_assoc;
        split; [done|left; by apply Forall_app]..].
    destruct (generate_success ui s2 s3 p Eg)
      as (pre & a & _ & _ & _ & Hl3' & Hout & _).
    assert (ev3 = pre ++ [Call_CreatePoster a]) as ->.
    { rewrite Hl3 in Hl3'. by apply app_inv_head in Hl3'. }
    destruct (generate_outcome ui s2) as (ev3' & Hl3'' & Hcase).
    rewrite Eg in Hl3'', Hcase. cbn [fst snd] in *.
    assert (ev3' = pre ++ [Call_CreatePoster a]) as ->.
    { rewrite Hl3 in Hl3''. by apply app_inv_head in Hl3''. }
    destruct Hcase as [(_ & _ & Hnoerr)|[[=] _]].
    apply Forall_app in HP3 as [HP3 _].
    assert (Forall (λ e, is_result_event e = false ∧ not_an_error e) pre) as Hpre.
    { rewrite Forall_forall in *. intros e He. split; [by apply HP3|].
      intros m ->. apply (Hnoerr m). apply elem_of_app. by left. }
    assert (∃ ev4, log ((if truthy p then show_result ui p else mret tt) s3).2 = log s3 ++ ev4 ∧
                   Forall (shows_file p) ev4 ∧
                   (∀ q, Call_os_remove q ∈ ev4 → ∃ l f m, St_download_button l p f m ∈ ev4))
      as (ev4 & Hl4 & HP4 & Hrm).
    { destruct (truthy p); [apply show_result_events|].
      exists []. cbn. rewrite app_nil_r. split_and!; [done|constructor|].
      intros q Hq. by apply elem_of_nil in Hq. }
    exists ((ev1 ++ ev2) ++ (pre ++ [Call_CreatePoster a]) ++ ev4). split.
    { destruct ((if truthy p then show_result ui p else mret tt) s3) as [[[]|e] s4];
        cbn [snd] in *; by rewrite Hl4, Hl3, Hl2, Hl1, !app_assoc. }
    right. exists ((ev1 ++ ev2) ++ pre), a, ev4. subst p.
    split_and!; [by rewrite <- !app_assoc|by apply Forall_app|done|done].
  - assert (logs (λ e, is_result_event e = false) (λ _, True)
              (emit (St_info "💡 Adjust the parameters in the sidebar and click **Render Map** to start.");;
               welcome_columns 0 (take 12 themes);; mret Finished)) as Hw.
    { eapply (logs_bind _ (λ _, True)); [by apply logs_emit|intros ? _].
      eapply (logs_bind _ (λ _, True)); [by apply logs_welcome_columns|intros; by apply logs_ret]. }
    destruct (Hw s2) as (ev3 & Hl3 & HP3 & _).
    exists ((ev1 ++ ev2) ++ ev3). rewrite Hl3, Hl2, Hl1, !app_assoc.
    split; [done|left; by apply Forall_app].
Qed.

(** The file is removed only at the end of a run that went well: the
    compositor wrote that very file, the download button for it was shown,
    and no error was. *)
Theorem file_is_removed_after_download (ui : sidebar) (s : session) :
  ∃ evs, log (main ui s).2 = log s ++ evs ∧
    ∀ p, Call_os_remove p ∈ evs →
      (∃ a, Call_CreatePoster a ∈ evs ∧ arg_output_file a = p) ∧
      (∃ l f m, St_download_button l p f m ∈ evs) ∧
      ∀ msg, St_error msg ∉ evs.
Proof.
  destruct (main_shape ui s) as (evs & Hl & [Hq|(pre & a & post & -> & Hpre & Hpost & Hrm)]);
    exists evs || exists (pre ++ Call_CreatePoster a :: post); (split; [done|]); intros p Hp.
  { rewrite Forall_forall in Hq. by apply Hq in Hp. }
  rewrite Forall_forall in Hpre, Hpost.
  apply elem_of_app in Hp as [Hp|Hp]; [by apply Hpre in Hp as [? _]|].
  apply elem_of_cons in Hp as [[=]|Hp].
  pose proof (Hpost _ Hp) as Hfile. cbn in Hfile. subst p. split_and!.
  - exists a. split; [|done]. apply elem_of_app. right. apply list_elem_of_here.
  - destruct (Hrm _ Hp) as (l & f & m & Hd). exists l, f, m.
    apply elem_of_app. right. by apply list_elem_of_further.
  - intros msg [He|He]%elem_of_app.
    + apply Hpre in He as [_ He]. by apply (He msg).
    + apply elem_of_cons in He as [[=]|He]. by apply Hpost in He.
Qed.

(** A run that shows an error shows nothing else of the result and removes
    no file: a temporary file made before the failure stays on disk. *)
Theorem error_leaves_the_temp_file (ui : sidebar) (s : session) :
  ∃ evs, log (main ui s).2 = log s ++ evs ∧
    ((∃ msg, St_error msg ∈ evs) →
     ∀ e, e ∈ evs →
       match e with
       | Call_Image_open _ | St_image _ | Call_open_rb _
       | St_download_button _ _ _ _ | Call_os_remove _ => False
       | _ => True
       end).
Proof.
  destruct (main_shape ui s) as (evs & Hl & [Hq|(pre & a & post & -> & Hpre & Hpost & Hrm)]);
    exists evs || exists (pre ++ Call_CreatePoster a :: post); (split; [done|]).
  - intros _ e He. rewrite Forall_forall in Hq. apply Hq in He. by destruct e.
  - rewrite Forall_forall in Hpre, Hpost.
    intros [msg [He|He]%elem_of_app].
    + apply Hpre in He as [_ He]. by destruct (He msg).
    + apply elem_of_cons in He as [[=]|He]. by apply Hpost in He.
Qed.

(** ** How often a run calls out *)

Lemma count_events_app kind l1 l2 :
  count_events kind (l1 ++ l2) = (count_events kind l1 + count_events kind l2)%nat.
Proof. unfold count_events. by rewrite List.filter_app, length_app. Qed.

Lemma count_events_none kind l :
  Forall (λ e, kind e = false) l → count_events kind l = 0%nat.
Proof.
  unfold count_events. induction 1 as [|e l He _ IH]; [done|]. cbn. by rewrite He.
Qed.

Lemma emits_none {A} kind n (m : M A) :
  logs (λ e, kind e = false) (λ _, True) m →
  emits (λ evs, count_events kind evs ≤ n)%nat m.
Proof.
  intros Hm s. destruct (Hm s) as (evs & Hl & HP & _). exists evs. split; [done|].
  rewrite count_events_none by done. lia.
Qed.

Lemma emits_count_bind {A B} kind n1 n2 (m : M A) (f : A → M B) :
  emits (λ evs, count_events kind evs ≤ n1)%nat m →
  (∀ a, emits (λ evs, count_events kind evs ≤ n2)%nat (f a)) →
  emits (λ evs, count_events kind evs ≤ n1 + n2)%nat (m ≫= f).
Proof.
  intros Hm Hf s. destruct (Hm s) as (ev1 & Hl1 & H1).
  unfold mbind, M_bind. destruct (m s) as [[a|e] s1]; cbn [snd] in *.
  - destruct (Hf a s1) as (ev2 & Hl2 & H2). exists (ev1 ++ ev2).
    rewrite Hl2, Hl1, app_assoc, count_events_app. split; [done|lia].
  - exists ev1. split; [done|lia].
Qed.

Lemma emits_count_try_except {A} kind n1 n2 (body : M A) handler :
  emits (λ evs, count_events kind evs ≤ n1)%nat body →
  (∀ e, emits (λ evs, count_events kind evs ≤ n2)%nat (handler e)) →
  emits (λ evs, count_events kind evs ≤ n1 + n2)%nat (try_except body handler).
Proof.
  intros Hb Hh s. destruct (Hb s) as (ev1 & Hl1 & H1).
  unfold try_except. destruct (body s) as [[a|e] s1]; cbn [snd] in *.
  - exists ev1. split; [done|lia].
  - destruct (Hh e s1) as (ev2 & Hl2 & H2). exists (ev1 ++ ev2).
    rewrite Hl2, Hl1, app_assoc, count_events_app. split; [done|lia].
Qed.

Lemma emits_count_call {A} kind e (f : world → outcome A * world) n :
  (kind e = true → 1 ≤ n)%nat →
  emits (λ evs, count_events kind evs ≤ n)%nat (call e f).
Proof.
  intros Hn s. exists [e]. rewrite call_log. split; [done|].
  unfold count_events. cbn. destruct (kind e); cbn; [by apply Hn|lia].
Qed.

Lemma emits_count_le {A} kind n n' (m : M A) :
  emits (λ evs, count_events kind evs ≤ n)%nat m → (n ≤ n')%nat →
  emits (λ evs, count_events kind evs ≤ n')%nat m.
Proof.
  intros Hm Hn s. destruct (Hm s) as (evs & Hl & Hc). exists evs. split; [done|lia].
Qed.

Ltac count_bind n1 n2 :=
  eapply emits_count_le; [apply (emits_count_bind _ n1 n2)|lia].

(** A kind of event that only the temporary file call and the compositor call
    can be of is seen at most as often as these two count for. *)
Lemma emits_count_main kind nt np ui :
  (∀ e, is_temp_file_call e = false → is_poster_call e = false → kind e = false) →
  (∀ x, kind (Call_NamedTemporaryFile x) = true → 1 ≤ nt)%nat →
  (∀ a, kind (Call_CreatePoster a) = true → 1 ≤ np)%nat →
  emits (λ evs, count_events kind evs ≤ nt + np)%nat (main ui).
Proof.
  intros Hz Ht Hp.
  assert (emits (λ evs, count_events kind evs ≤ nt + np)%nat (generate ui)) as Hgen.
  { unfold generate. eapply emits_count_le;
      [apply (emits_count_try_except _ (nt + np) 0)|lia].
    - count_bind (nt + np)%nat 0%nat; [|intros p; apply emits_none; by apply logs_ret].
      unfold generate_body. count_bind 0%nat (nt + np)%nat.
      { apply emits_none. apply logs_handle_coordinates. intros; by apply Hz. }
      intros pt. unfold generate_poster. count_bind 0%nat (nt + np)%nat.
      { apply emits_none. apply logs_get_cached_theme. intros; by apply Hz. }
      intros th. count_bind nt np; [apply emits_count_call, Ht|].
      intros path. count_bind 0%nat np.
      { apply emits_none. eapply logs_weaken;
          [apply (logs_load_custom_fonts (λ e, kind e = false)); intros; by apply Hz
          |done|done]. }
      intros fs. count_bind np 0%nat; [apply emits_count_call, Hp|].
      intros; apply emits_none; by apply logs_ret.
    - intros e. apply emits_none.
      eapply (logs_bind _ (λ _, True)); [apply logs_emit; by apply Hz|].
      intros; by apply logs_ret. }
  unfold main. count_bind 0%nat (nt + np)%nat.
  { apply emits_none. apply logs_call. by apply Hz. }
  intros themes. count_bind 0%nat (nt + np)%nat.
  { apply emits_none.
    destruct (clear_btn ui); [apply logs_clear_cache; by apply Hz|by apply logs_ret]. }
  intros []; [|apply emits_none; by apply logs_ret].
  destruct (generate_btn ui || live_mode ui).
  - count_bind (nt + np)%nat 0%nat; [exact Hgen|].
    intros [p|]; [|apply emits_none; by apply logs_ret].
    apply emits_none.
    eapply (logs_bind _ (λ _, True)); [|intros; by apply logs_ret].
    destruct (truthy p); [|by apply logs_ret].
    by apply logs_show_result_kind.
  - apply emits_none.
    eapply (logs_bind _ (λ _, True)); [apply logs_emit; by apply Hz|intros ? _].
    eapply (logs_bind _ (λ _, True)); [|intros; by apply logs_ret].
    apply logs_welcome_columns. intros; by apply Hz.
Qed.

(** A run of the script makes at most one temporary file and calls the
    compositor at most once. *)
Theorem one_poster_per_run (ui : sidebar) (s : session) :
  ∃ evs, log (main ui s).2 = log s ++ evs ∧
         (count_events is_temp_file_call evs ≤ 1)%nat ∧
         (count_events is_poster_call evs ≤ 1)%nat.
Proof.
  destruct (emits_count_main is_temp_file_call 1 0 ui) with (s := s) as (ev1 & Hl1 & H1).
  { intros e Ht _. exact Ht. }
  { done. }
  { done. }
  destruct (emits_count_main is_poster_call 0 1 ui) with (s := s) as (ev2 & Hl2 & H2).
  { intros e _ Hp. exact Hp. }
  { done. }
  { done. }
  assert (ev2 = ev1) as -> by (rewrite Hl1 in Hl2; by apply app_inv_head in Hl2).
  exists ev1. split_and!; [done|lia|lia].
Qed.

(** ** The theme select box *)

Lemma list_index_elem x l :
  x ∈ l → ∃ i, list_index x l = Returns i ∧ l !! i = Some x ∧
               ∀ j, (j < i)%nat → l !! j ≠ Some x.
Proof.
  induction l as [|y l IH]; [by intros ?%elem_of_nil|].
  intros Hin. cbn. destruct (String.eqb_spec y x) as [->|Hne].
  - exists 0%nat. split_and!; [done|done|lia].
  - apply elem_of_cons in Hin as [->|Hin]; [done|].
    destruct (IH Hin) as (i & -> & Hi & Hfirst). exists (S i).
    split_and!; [done|done|]. intros [|j] Hj; cbn; [congruence|].
    apply Hfirst. lia.
Qed.

Lemma list_index_not_elem x l : x ∉ l → ∃ e, list_index x l = Raises e.
Proof.
  induction l as [|y l IH]; intros Hx; cbn; [eauto|].
  apply not_elem_of_cons in Hx as [Hne Hx].
  destruct (String.eqb_spec y x) as [->|_]; [done|].
  destruct (IH Hx) as [e ->]. eauto.
Qed.

(** The default index never raises and is the first position of
    "terracotta" when it is listed. *)
Lemma default_theme_index_returns themes :
  ∃ i, default_theme_index themes = Returns i ∧
       if bool_decide ("terracotta" ∈ themes)
       then themes !! i = Some "terracotta" ∧ ∀ j, (j < i)%nat → themes !! j ≠ Some "terracotta"
       else i = 0%nat.
Proof.
  unfold default_theme_index. case_bool_decide as Hin; [|by exists 0%nat].
  destruct (list_index_elem _ _ Hin) as (i & -> & Hi). by exists i.
Qed.

(** The theme box never fails to open: it starts on "terracotta" when that
    theme is available, on the first theme otherwise, and empty when there is
    no theme at all. *)
Theorem default_theme_is_terracotta_or_first (themes : list string) :
  default_theme themes =
    Returns (if bool_decide ("terracotta" ∈ themes) then Some "terracotta" else head themes).
Proof.
  unfold default_theme.
  destruct (default_theme_index_returns themes) as (i & -> & Hi).
  case_bool_decide as Hin.
  - destruct Hi as [Hi _]. unfold selectbox. rewrite Hi. by destruct themes.
  - subst i. by destruct themes.
Qed.

(** ** When a render is attempted *)

(** With "Render Map" pressed or live mode on, and no clearing, a run that
    got the theme list always attempts the render: it reaches the compositor
    or it shows an error. *)
Theorem render_is_attempted (ui : sidebar) (s : session) (themes : list string) (w : world) :
  clear_btn ui = false →
  generate_btn ui || live_mode ui = true →
  get_available_themes (env s) = (Returns themes, w) →
  ∃ evs, log (main ui s).2 = log s ++ evs ∧
         ((∃ a, Call_CreatePoster a ∈ evs) ∨ (∃ msg, St_error msg ∈ evs)).
Proof.
  intros Hc Hg Hth. rewrite main_unfold, Hc, Hg. unfold call at 1. rewrite Hth. cbn [mret M_ret].
  set (s1 := Session (coords_memo s) (theme_memo s) w (log s ++ [Call_get_available_themes])).
  destruct (generate_outcome ui s1) as (ev & Hl & Hcase).
  destruct (generate ui s1) as [[[p|]|e] s3] eqn:Eg; cbn [fst snd] in *.
  - destruct (generate_success ui s1 s3 p Eg)
      as (pre & a & _ & _ & _ & Hl3 & _).
    assert (∃ ev4, log ((if truthy p then show_result ui p else mret tt) s3).2 = log s3 ++ ev4)
      as [ev4 Hl4].
    { destruct (truthy p); [|exists []; cbn; by rewrite app_nil_r].
      destruct (show_result_events ui p s3) as (ev4 & Hl4 & _). by exists ev4. }
    exists ([Call_get_available_themes] ++ (pre ++ [Call_CreatePoster a]) ++ ev4). split.
    + destruct ((if truthy p then show_result ui p else mret tt) s3) as [[[]|e] s4];
        cbn [snd] in *; rewrite Hl4, Hl3; subst s1; cbn [log]; by rewrite <- !app_assoc.
    + left. exists a. apply elem_of_app. right. apply elem_of_app. left.
      apply elem_of_app. right. apply list_elem_of_here.
  - destruct Hcase as [(? & [=] & _)|(_ & pre & msg & -> & _)].
    exists ([Call_get_available_themes] ++ pre ++ [St_error msg]). split.
    + rewrite Hl. subst s1. cbn [log]. by rewrite <- !app_assoc.
    + right. exists msg. apply elem_of_app. right. apply elem_of_app. right.
      apply list_elem_of_here.
  - by destruct Hcase as [(? & [=] & _)|([=] & _)].
Qed.

End ScriptFacts.

(** * More worked examples *)

Section MoreExamples.
Import Engine Demo.
#[local] Existing Instance capabilities.

Lemma generate_returns_the_rendered_file_witness :
  ∃ pre a w0 w1 w,
    log (generate new_york (fresh no_cache)).2 =
      log (fresh no_cache) ++ pre ++ [Call_CreatePoster a] ∧
    arg_output_file a = "/tmp/tmp0.png" ∧
    Call_NamedTemporaryFile ".png" ∈ pre ∧
    NamedTemporaryFile ".png" w0 = (Returns "/tmp/tmp0.png", w1) ∧
    CreatePoster a w = (Returns tt, env (generate new_york (fresh no_cache)).2).
Proof.
  apply (generate_returns_the_rendered_file new_york (fresh no_cache)).
  apply pair_eta_fst. vm_compute. reflexivity.
Defined.

Lemma failed_geocoding_stops_generate_witness :
  generate atlantis (fresh no_cache) =
    (Returns None,
     Session ∅ ∅ (MkWorld None [("Atlantis", "Nowhere")] [] [] ∅ 0)
             [Call_get_coordinates "Atlantis" "Nowhere";
              St_error "Error: ResolutionError: Atlantis, Nowhere"]).
Proof.
  apply (failed_geocoding_stops_generate atlantis (fresh no_cache)
           (PyException "ResolutionError: Atlantis, Nowhere")).
  - reflexivity.
  - reflexivity.
  - vm_compute. reflexivity.
Defined.

Lemma failed_theme_makes_no_temp_file_witness :
  generate no_such_theme (fresh no_cache) =
    (Returns None,
     Session (coords_memo (handle_coordinates no_such_theme (fresh no_cache)).2)
             (theme_memo (handle_coordinates no_such_theme (fresh no_cache)).2)
             (env (handle_coordinates no_such_theme (fresh no_cache)).2)
             (log (handle_coordinates no_such_theme (fresh no_cache)).2
                ++ [Call_load_theme "midnight";
                    St_error "Error: ThemeNotFoundError: midnight"])).
Proof.
  apply (failed_theme_makes_no_temp_file no_such_theme (fresh no_cache) _ ny
           (PyException "ThemeNotFoundError: midnight")).
  - apply pair_eta_fst. vm_compute. reflexivity.
  - vm_compute. reflexivity.
  - vm_compute. reflexivity.
Defined.

(** In that run no temporary file was handed out. *)
Example no_such_theme_run :
  temp_files (env (generate no_such_theme (fresh no_cache)).2) = 0%nat.
Proof. vm_compute. reflexivity. Qed.

Lemma failed_resolution_is_retried_witness :
  let s1 := (get_cached_coordinates "Atlantis" "Nowhere" (fresh no_cache)).2 in
  coords_memo s1 = coords_memo (fresh no_cache) ∧
  coords_memo s1 !! ("Atlantis", "Nowhere") = None ∧
  log s1 = log (fresh no_cache) ++ [Call_get_coordinates "Atlantis" "Nowhere"] ∧
  ∃ r s2, get_cached_coordinates "Atlantis" "Nowhere" s1 = (r, s2) ∧
          log s2 = log s1 ++ [Call_get_coordinates "Atlantis" "Nowhere"].
Proof.
  apply (failed_resolution_is_retried "Atlantis" "Nowhere" (fresh no_cache) _
           (PyException "ResolutionError: Atlantis, Nowhere")).
  apply pair_eta_fst. vm_compute. reflexivity.
Defined.

Lemma memoised_point_outlives_every_run_witness :
  let s1 := (get_cached_coordinates "New York" "USA" (fresh no_cache)).2 in
  get_cached_coordinates "New York" "USA" (after_runs [press_clear; atlantis; new_york] s1)
  = (Returns ny, after_runs [press_clear; atlantis; new_york] s1).
Proof.
  apply (memoised_point_outlives_every_run "New York" "USA" (fresh no_cache)).
  apply pair_eta_fst. vm_compute. reflexivity.
Defined.

Lemma memoised_theme_outlives_every_run_witness :
  let s1 := (get_cached_theme "terracotta" (fresh no_cache)).2 in
  get_cached_theme "terracotta" (after_runs [press_clear; new_york] s1)
  = (Returns terracotta, after_runs [press_clear; new_york] s1).
Proof.
  apply (memoised_theme_outlives_every_run "terracotta" (fresh no_cache)).
  apply pair_eta_fst. vm_compute. reflexivity.
Defined.

Lemma rerun_only_after_clearing_witness :
  let s' := (main live_clear (fresh empty_cache)).2 in
  clear_btn live_clear = true ∧
  log s' = log (fresh empty_cache)
             ++ [Call_get_available_themes; Call_rmtree_CACHE_DIR;
                 Call_mkdir_CACHE_DIR; St_success "Cache cleared!"; St_rerun] ∧
  coords_memo s' = coords_memo (fresh empty_cache) ∧
  theme_memo s' = theme_memo (fresh empty_cache).
Proof.
  apply (rerun_only_after_clearing live_clear (fresh empty_cache)).
  apply pair_eta_fst. vm_compute. reflexivity.
Defined.

Lemma idle_run_shows_the_welcome_screen_witness :
  main idle (fresh no_cache) =
    (Returns Finished,
     Session ∅ ∅ no_cache
       ([] ++
        Call_get_available_themes
        :: St_info "💡 Adjust the parameters in the sidebar and click **Render Map** to start."
        :: imap (λ j t, St_markdown (j mod 4) (welcome_line t)) (take 12 ["terracotta"]))).
Proof.
  apply (idle_run_shows_the_welcome_screen idle (fresh no_cache) ["terracotta"] no_cache);
    reflexivity.
Defined.

Lemma render_is_attempted_witness :
  ∃ evs, log (main atlantis (fresh no_cache)).2 = log (fresh no_cache) ++ evs ∧
         ((∃ a, Call_CreatePoster a ∈ evs) ∨ (∃ msg, St_error msg ∈ evs)).
Proof.
  apply (render_is_attempted atlantis (fresh no_cache) ["terracotta"] no_cache); reflexivity.
Defined.

(** The welcome lines of five themes: underscores become spaces, words are
    capitalised, and the fifth theme is back in the first column. *)
Example welcome_of_five_themes :
  imap (λ j t, ((j mod 4)%nat, welcome_line t)) five_themes =
    [(0, "🔹 **Noir**"); (1, "🔹 **Neon Cyberpunk**"); (2, "🔹 **Terracotta**");
     (3, "🔹 **Blueprint**"); (0, "🔹 **Warm Beige**")]%nat.
Proof. vm_compute. reflexivity. Qed.

Example default_theme_of_five : default_theme five_themes = Returns (Some "terracotta").
Proof. vm_compute. reflexivity. Qed.

End MoreExamples.

Section OfflineExamples.
Import Engine Demo.
#[local] Existing Instance offline.

(** With the map data source down the compositor raises: the run shows the
    error, and the temporary file it made is not removed. *)
Example offline_run_leaves_the_temp_file :
  let s' := (main offline_new_york (fresh no_cache)).2 in
  (main offline_new_york (fresh no_cache)).1 = Returns Finished ∧
  count_events is_temp_file_call (log s') = 1%nat ∧
  count_events is_poster_call (log s') = 1%nat ∧
  count_events is_result_event (log s') = 0%nat ∧
  error_messages (log s') = ["Error: NetworkDataError"] ∧
  temp_files (env s') = 1%nat.
Proof. cbv zeta. split_and!; vm_compute; reflexivity. Qed.

End OfflineExamples.
